(** * backup-rotator: the decision core, embedded and verified

    A shallow embedding of the decision logic of the backup rotator:
    - [src/rotation_engine.py]: the GFS retention engine;
    - [src/disk_monitor.py]: the two-threshold disk monitor;
    - [src/backup_scanner.py]: timestamp extraction and the scanner;
    - [src/state_manager.py]: the persisted deletion counters.

    Python values are modelled as follows: [int] as [Z]; the [float]s of
    the disk monitor as binary64 values ([spec_float], every operation
    rounding to nearest even as the hardware does); file sizes in megabytes
    as exact rationals [Q]; [str] and [Path] as [string]; a [dict] as a
    [gmap]; a [set] of [BackupFile] (hashed and compared by path) as a
    [gmap] from the path to the stored element; a raised exception as
    [None] or as the left of a sum. *)

From Stdlib Require Import ZArith QArith Ascii String SpecFloat.
From stdpp Require Import gmap strings list fin_maps fin_sets sorting.

Local Open Scope Z_scope.
#[local] Set Warnings "-clear-no-such-hyp".

(** ** Python built-ins used by the sources *)

Module Py.

(** Comparison of tuples of integers: lexicographic, first difference
    decides, a proper prefix is smaller. *)
Fixpoint tuple_compare (a b : list Z) : comparison :=
  match a, b with
  | [], [] => Eq
  | [], _ :: _ => Lt
  | _ :: _, [] => Gt
  | x :: a', y :: b' =>
      match Z.compare x y with
      | Eq => tuple_compare a' b'
      | c => c
      end
  end.

Section Keyed.
Context {A : Type} (key : A -> list Z).

(** [key a < key b] *)
Definition key_ltb (a b : A) : bool :=
  match tuple_compare (key a) (key b) with Lt => true | _ => false end.

(** One step of a stable descending sort: [x] preceded every element of
    [l] in the input, so it goes before the first element whose key is
    not strictly larger. *)
Fixpoint insert_desc (x : A) (l : list A) : list A :=
  match l with
  | [] => [x]
  | y :: l' => if key_ltb x y then y :: insert_desc x l' else x :: l
  end.

(** [sorted(l, key=key, reverse=True)]: descending, and stable (elements
    with equal keys keep their input order). *)
Fixpoint sorted_rev (l : list A) : list A :=
  match l with
  | [] => []
  | x :: l' => insert_desc x (sorted_rev l')
  end.

Fixpoint max_from (best : A) (l : list A) : A :=
  match l with
  | [] => best
  | x :: l' => max_from (if key_ltb best x then x else best) l'
  end.

(** [max(l, key=key)]: the first element with the largest key;
    [ValueError] ([None]) on an empty list. *)
Definition max_by (l : list A) : option A :=
  match l with
  | [] => None
  | x :: l' => Some (max_from x l')
  end.

(** Descending order: no element is smaller than a later one. *)
Definition descending (l : list A) : Prop :=
  StronglySorted (fun a b => key_ltb a b = false) l.
End Keyed.

(** [l[:n]] for any integer [n]: a negative [n] counts from the end. *)
Definition slice_to {A} (n : Z) (l : list A) : list A :=
  if 0 <=? n then take (Z.to_nat n) l
  else take (length l - Z.to_nat (- n))%nat l.

(** [s.split(sep)] for a one-character separator. *)
Fixpoint split (sep : ascii) (s : string) : list string :=
  match s with
  | EmptyString => [EmptyString]
  | String c s' =>
      if Ascii.eqb c sep then EmptyString :: split sep s'
      else match split sep s' with
           | [] => [String c EmptyString]
           | p :: ps => String c p :: ps
           end
  end.

End Py.

(** ** [datetime] (naive), after CPython's [datetime.py] *)

Module Datetime.

Record datetime := mk_datetime {
  year : Z; month : Z; day : Z;
  hour : Z; minute : Z; second : Z; microsecond : Z
}.

Global Instance datetime_eq_dec : EqDecision datetime.
Proof. solve_decision. Defined.

(** Naive datetimes compare as the tuple of their fields. *)
Definition as_tuple (d : datetime) : list Z :=
  [year d; month d; day d; hour d; minute d; second d; microsecond d].

Definition _is_leap (y : Z) : bool :=
  (y mod 4 =? 0) && (negb (y mod 100 =? 0) || (y mod 400 =? 0)).

Definition _days_before_year (y : Z) : Z :=
  let y := y - 1 in y * 365 + y / 4 - y / 100 + y / 400.

Definition _DAYS_IN_MONTH : list Z :=
  [31; 28; 31; 30; 31; 30; 31; 31; 30; 31; 30; 31].

Definition _days_in_month (y m : Z) : Z :=
  if (m =? 2) && _is_leap y then 29
  else nth (Z.to_nat (m - 1)) _DAYS_IN_MONTH 0.

Definition _days_before_month (y m : Z) : Z :=
  fold_right Z.add 0 (take (Z.to_nat (m - 1)) _DAYS_IN_MONTH)
  + (if (2 <? m) && _is_leap y then 1 else 0).

Definition _ymd2ord (y m d : Z) : Z :=
  _days_before_year y + _days_before_month y m + d.

Definition toordinal (dt : datetime) : Z :=
  _ymd2ord (year dt) (month dt) (day dt).

(** Monday is 0, Sunday is 6. *)
Definition weekday (dt : datetime) : Z := (toordinal dt + 6) mod 7.

Definition _isoweek1monday (y : Z) : Z :=
  let firstday := _ymd2ord y 1 1 in
  let firstweekday := (firstday + 6) mod 7 in
  let week1monday := firstday - firstweekday in
  if 3 <? firstweekday then week1monday + 7 else week1monday.

(** [(iso_year, iso_week, iso_weekday)] *)
Definition isocalendar (dt : datetime) : Z * Z * Z :=
  let y := year dt in
  let week1monday := _isoweek1monday y in
  let today := toordinal dt in
  let week := (today - week1monday) / 7 in
  let wday := (today - week1monday) mod 7 in
  if week <? 0 then
    let y := y - 1 in
    let week1monday := _isoweek1monday y in
    (y, (today - week1monday) / 7 + 1, (today - week1monday) mod 7 + 1)
  else if (52 <=? week) && (_isoweek1monday (y + 1) <=? today) then
    (y + 1, 1, wday + 1)
  else (y, week + 1, wday + 1).

(** The datetime constructor's range check. *)
Definition valid (dt : datetime) : bool :=
  (1 <=? year dt) && (year dt <=? 9999) &&
  (1 <=? month dt) && (month dt <=? 12) &&
  (1 <=? day dt) && (day dt <=? _days_in_month (year dt) (month dt)) &&
  (0 <=? hour dt) && (hour dt <=? 23) &&
  (0 <=? minute dt) && (minute dt <=? 59) &&
  (0 <=? second dt) && (second dt <=? 59) &&
  (0 <=? microsecond dt) && (microsecond dt <=? 999999).

End Datetime.

Export Datetime(datetime, mk_datetime).

(** ** [BackupFile] ([src/backup_scanner.py]) *)

Record BackupFile := mk_BackupFile {
  path : string;
  filename : string;
  timestamp : datetime;
  size_bytes : Z;
  project_id : string
}.

Global Instance BackupFile_eq_dec : EqDecision BackupFile.
Proof. solve_decision. Defined.

(** [key=lambda b: b.timestamp] *)
Definition by_timestamp (b : BackupFile) : list Z :=
  Datetime.as_tuple (timestamp b).

(** A Python [set] of [BackupFile]: [__hash__] and [__eq__] look at the path
    only, so the set holds at most one element per path; [add] keeps the
    element already stored. *)
Module FileSet.

Definition t := gmap string BackupFile.

Definition empty : gmap string BackupFile := ∅.

Definition contains (b : BackupFile) (s : gmap string BackupFile) : bool :=
  bool_decide (is_Some (s !! path b)).

Definition add (b : BackupFile) (s : gmap string BackupFile)
  : gmap string BackupFile :=
  if contains b s then s else <[path b := b]> s.

Definition update (l : list BackupFile) (s : gmap string BackupFile)
  : gmap string BackupFile :=
  foldl (fun s b => add b s) s l.

Definition len (s : gmap string BackupFile) : nat := size s.

End FileSet.

(** ** The retention engine ([src/rotation_engine.py]) *)

Module RotationEngine.

Record t := mk {
  daily_count : Z;
  weekly_count : Z;
  monthly_count : Z
}.

Definition _is_monday (dt : datetime) : bool := Datetime.weekday dt =? 0.

Definition _is_first_of_month (dt : datetime) : bool := Datetime.day dt =? 1.

Definition _get_calendar_week_key (dt : datetime) : Z * Z :=
  let iso_calendar := Datetime.isocalendar dt in
  (iso_calendar.1.1, iso_calendar.1.2).

Definition _get_calendar_month_key (dt : datetime) : Z * Z :=
  (Datetime.year dt, Datetime.month dt).

(** Keys are pairs of integers and compare as tuples. *)
Definition key_tuple (k : Z * Z) : list Z := [k.1; k.2].

(** [buckets = defaultdict(list); for b in l: buckets[key(b)].append(b)] *)
Definition bucket_append (key : datetime -> Z * Z)
    (m : gmap (Z * Z) (list BackupFile)) (b : BackupFile)
  : gmap (Z * Z) (list BackupFile) :=
  let k := key (timestamp b) in
  <[k := default [] (m !! k) ++ [b]]> m.

Definition buckets (key : datetime -> Z * Z) (l : list BackupFile)
  : gmap (Z * Z) (list BackupFile) :=
  foldl (bucket_append key) ∅ l.

(** [sorted(buckets.keys(), reverse=True)[:count]]. The keys of a dict are
    pairwise distinct, so the sorted list does not depend on the order in
    which the dict enumerates them. *)
Definition sorted_keys (count : Z) (m : gmap (Z * Z) (list BackupFile))
  : list (Z * Z) :=
  Py.slice_to count (Py.sorted_rev key_tuple (elements (dom m))).

(** The body of one iteration of the weekly and of the monthly loop: the
    element handed to [keep_backups.add]. [prefer] is the anchor test
    (Monday, first of month). [None] is the [ValueError] of [max] on an
    empty bucket. *)
Definition pick (prefer : datetime -> bool)
    (m : gmap (Z * Z) (list BackupFile)) (k : Z * Z) : option BackupFile :=
  let bucket := default [] (m !! k) in
  let preferred := List.filter (fun b => prefer (timestamp b)) bucket in
  match preferred with
  | _ :: _ => Py.max_by by_timestamp preferred
  | [] => Py.max_by by_timestamp bucket
  end.

(** [for k in keys: keep.add(pick(k))] *)
Fixpoint keep_loop (prefer : datetime -> bool)
    (m : gmap (Z * Z) (list BackupFile)) (keys : list (Z * Z))
    (keep : gmap string BackupFile) : option (gmap string BackupFile) :=
  match keys with
  | [] => Some keep
  | k :: keys' =>
      match pick prefer m k with
      | Some b => keep_loop prefer m keys' (FileSet.add b keep)
      | None => None
      end
  end.

Definition sorted_backups (backups : list BackupFile) : list BackupFile :=
  Py.sorted_rev by_timestamp backups.

Definition daily_backups (self : t) (backups : list BackupFile)
  : list BackupFile :=
  Py.slice_to (daily_count self) (sorted_backups backups).

Definition weekly_buckets (backups : list BackupFile) :=
  buckets _get_calendar_week_key (sorted_backups backups).

Definition sorted_weeks (self : t) (backups : list BackupFile) : list (Z * Z) :=
  sorted_keys (weekly_count self) (weekly_buckets backups).

Definition monthly_buckets (backups : list BackupFile) :=
  buckets _get_calendar_month_key (sorted_backups backups).

Definition sorted_months (self : t) (backups : list BackupFile) : list (Z * Z) :=
  sorted_keys (monthly_count self) (monthly_buckets backups).

(** The records the weekly loop and the monthly loop hand to
    [keep_backups.add], in the order of the loop. *)
Definition weekly_backups (self : t) (backups : list BackupFile)
  : list BackupFile :=
  omap (pick _is_monday (weekly_buckets backups)) (sorted_weeks self backups).

Definition monthly_backups (self : t) (backups : list BackupFile)
  : list BackupFile :=
  omap (pick _is_first_of_month (monthly_buckets backups))
       (sorted_months self backups).

(** [keep_backups] when the function reaches its last statement. *)
Definition keep_backups (self : t) (backups : list BackupFile)
  : option (gmap string BackupFile) :=
  let keep := FileSet.update (daily_backups self backups) FileSet.empty in
  keep ← keep_loop _is_monday (weekly_buckets backups)
                   (sorted_weeks self backups) keep;
  keep_loop _is_first_of_month (monthly_buckets backups)
            (sorted_months self backups) keep.

(** [calculate_deletions]: [None] would be an exception escaping. *)
Definition calculate_deletions (self : t) (backups : list BackupFile)
  : option (list BackupFile) :=
  match backups with
  | [] => Some []
  | _ =>
      keep ← keep_backups self backups;
      Some (List.filter (fun b => negb (FileSet.contains b keep))
                        (sorted_backups backups))
  end.

(** [create_rotation_engine]: [None] is an override left out. *)
Definition create_rotation_engine (daily weekly monthly : option Z)
    (default_daily default_weekly default_monthly : Z) : t :=
  mk (match daily with Some n => n | None => default_daily end)
     (match weekly with Some n => n | None => default_weekly end)
     (match monthly with Some n => n | None => default_monthly end).

(** The retained set: the input records minus the deletion set, records
    being identified by their path. *)
Definition retained (backups deletions : list BackupFile) : gset string :=
  list_to_set (path <$> backups) ∖ list_to_set (path <$> deletions).

(** The number of input records more recent than [r]. *)
Definition newer_than (r : BackupFile) (backups : list BackupFile) : nat :=
  length (filter (fun b => Py.key_ltb by_timestamp r b = true) backups).

(** The paths of the records handed to [keep_backups] by the three tiers. *)
Definition kept_paths (self : t) (backups : list BackupFile) : gset string :=
  list_to_set (path <$> daily_backups self backups)
  ∪ list_to_set (path <$> weekly_backups self backups)
  ∪ list_to_set (path <$> monthly_backups self backups).

End RotationEngine.

(** ** Python's [float]: IEEE 754 binary64, rounding to nearest even *)

Module Float64.

Definition prec : Z := 53.
Definition emax : Z := 1024.

(** [float(n)] for an integer [n] *)
Definition of_int (n : Z) : spec_float := binary_normalize prec emax n 0 false.

Definition add : spec_float -> spec_float -> spec_float := SFadd prec emax.
Definition mul : spec_float -> spec_float -> spec_float := SFmul prec emax.
Definition ltb : spec_float -> spec_float -> bool := SFltb.

(** [0.0] *)
Definition zero : spec_float := S754_zero false.

Inductive arith_error := ZeroDivision | Overflow.

(** [a / b] for integers [a], [b]: the quotient rounded once, whatever the
    size of the operands; [OverflowError] when it is too large for a
    float. *)
Definition int_truediv (a b : Z) : arith_error + spec_float :=
  if b =? 0 then inl ZeroDivision
  else match a with
       | Z0 => inr (S754_zero (b <? 0))
       | _ =>
           match SFdiv prec emax
                   (S754_finite (a <? 0) (Z.to_pos (Z.abs a)) 0)
                   (S754_finite (b <? 0) (Z.to_pos (Z.abs b)) 0) with
           | S754_infinity _ => inl Overflow
           | q => inr q
           end
       end.

End Float64.

(** ** The disk monitor ([src/disk_monitor.py]) *)

Module DiskMonitor.

Record t := mk {
  threshold_percent : spec_float;
  margin_percent : spec_float
}.

Definition resolution_threshold_percent (self : t) : spec_float :=
  Float64.add (threshold_percent self) (margin_percent self).

(** What the operating system answers when the monitored path is probed. *)
Inductive probe :=
| PathMissing                        (* [self.path.exists()] is false *)
| UsageFails                         (* [shutil.disk_usage] raises [OSError] *)
| Usage (total used free : Z).       (* the named tuple it returns *)

Inductive exception :=
| FileNotFoundError | OSError | ZeroDivisionError | OverflowError.

Definition raised (e : Float64.arith_error) : exception :=
  match e with
  | Float64.ZeroDivision => ZeroDivisionError
  | Float64.Overflow => OverflowError
  end.

(** Comparison of exact rationals, used for file sizes. *)
Definition Qltb (a b : Q) : bool :=
  match (a ?= b)%Q with Lt => true | _ => false end.

Definition GiB : Z := 1024 ^ 3.

(** [(usage.free / usage.total) * 100] *)
Definition percent_free (total free : Z) : Float64.arith_error + spec_float :=
  match Float64.int_truediv free total with
  | inr q => inr (Float64.mul q (Float64.of_int 100))
  | inl e => inl e
  end.

(** [(free_percent, free_gb, used_gb, total_gb)], or the exception raised. *)
Definition get_disk_usage (env : probe)
  : exception + (spec_float * spec_float * spec_float * spec_float) :=
  match env with
  | PathMissing => inl FileNotFoundError
  | UsageFails => inl OSError
  | Usage total used free =>
      match Float64.int_truediv total GiB,
            Float64.int_truediv used GiB,
            Float64.int_truediv free GiB,
            percent_free total free with
      | inr total_gb, inr used_gb, inr free_gb, inr free_percent =>
          inr (free_percent, free_gb, used_gb, total_gb)
      | inl e, _, _, _ => inl (raised e)
      | _, inl e, _, _ => inl (raised e)
      | _, _, inl e, _ => inl (raised e)
      | _, _, _, inl e => inl (raised e)
      end
  end.

(** [(should_alert, free_percent, free_gb, total_gb)] *)
Definition should_alert (self : t) (env : probe)
  : bool * spec_float * spec_float * spec_float :=
  match get_disk_usage env with
  | inr (free_percent, free_gb, used_gb, total_gb) =>
      (Float64.ltb free_percent (threshold_percent self),
       free_percent, free_gb, total_gb)
  | inl _ => (false, Float64.zero, Float64.zero, Float64.zero)
  end.

Definition is_resolved (self : t) (env : probe) : bool :=
  match get_disk_usage env with
  | inr (free_percent, _, _, _) =>
      Float64.ltb (resolution_threshold_percent self) free_percent
  | inl _ => false
  end.

(** [BackupRotator.check_disk_space] of [run.py], on the persisted field
    [disk_alert_last_sent_date]: [Some _] is the alerting state, [None]
    the quiet one. [should_alert] and [is_resolved] each probe the disk,
    hence two probes. The notifier swallows its own failures. *)
Definition check_disk_space (self : t) (today : string)
    (env1 env2 : probe) (disk_alert_last_sent_date : option string)
  : option string :=
  if (should_alert self env1).1.1.1 then
    if bool_decide (disk_alert_last_sent_date ≠ Some today)
    then Some today
    else disk_alert_last_sent_date
  else
    if is_resolved self env2 then None
    else disk_alert_last_sent_date.

End DiskMonitor.

(** ** [datetime.strptime], after CPython's [_strptime.py]

    Covered: the directives [%Y %m %d %H %M %S], [%%] and literal
    characters other than white space, each directive at most once; ASCII
    digits. Other formats are outside the model ([parse_format] answers
    [None], which reads as [ValueError]). *)

Module Strptime.

Local Open Scope string_scope.

Inductive directive := DY | Dm | Dd | DH | DM | DS.

Global Instance directive_eq_dec : EqDecision directive.
Proof. solve_decision. Defined.

Inductive item := Lit (c : ascii) | Dir (d : directive).

Global Instance item_eq_dec : EqDecision item.
Proof. solve_decision. Defined.

Definition directive_of (c : ascii) : option directive :=
  if Ascii.eqb c "Y" then Some DY else
  if Ascii.eqb c "m" then Some Dm else
  if Ascii.eqb c "d" then Some Dd else
  if Ascii.eqb c "H" then Some DH else
  if Ascii.eqb c "M" then Some DM else
  if Ascii.eqb c "S" then Some DS else None.

Definition is_space (c : ascii) : bool :=
  let n := nat_of_ascii c in
  (n =? 32)%nat || ((9 <=? n)%nat && (n <=? 13)%nat).

Fixpoint parse_items (fmt : string) : option (list item) :=
  match fmt with
  | EmptyString => Some []
  | String c rest =>
      if Ascii.eqb c "%" then
        match rest with
        | EmptyString => None
        | String c' rest' =>
            if Ascii.eqb c' "%" then
              its ← parse_items rest'; Some (Lit "%" :: its)
            else
              d ← directive_of c'; its ← parse_items rest';
              Some (Dir d :: its)
        end
      else if is_space c then None
      else its ← parse_items rest; Some (Lit c :: its)
  end.

Definition directives (its : list item) : list directive :=
  omap (fun i => match i with Dir d => Some d | Lit _ => None end) its.

Definition parse_format (fmt : string) : option (list item) :=
  its ← parse_items fmt;
  if bool_decide (NoDup (directives its)) then Some its else None.

(** One character of a directive's regular expression. *)
Inductive cls := Digit (lo hi : Z) | Blank.

(** The alternatives of each directive, in the order the regular
    expression tries them. *)
Definition alternatives (d : directive) : list (list cls) :=
  match d with
  | DY => [[Digit 0 9; Digit 0 9; Digit 0 9; Digit 0 9]]
  | Dm => [[Digit 1 1; Digit 0 2]; [Digit 0 0; Digit 1 9]; [Digit 1 9]]
  | Dd => [[Digit 3 3; Digit 0 1]; [Digit 1 2; Digit 0 9];
           [Digit 0 0; Digit 1 9]; [Digit 1 9]; [Blank; Digit 1 9]]
  | DH => [[Digit 2 2; Digit 0 3]; [Digit 0 1; Digit 0 9]; [Digit 0 9]]
  | DM => [[Digit 0 5; Digit 0 9]; [Digit 0 9]]
  | DS => [[Digit 6 6; Digit 0 1]; [Digit 0 5; Digit 0 9]; [Digit 0 9]]
  end.

Definition digit_value (c : ascii) : option Z :=
  let n := Z.of_nat (nat_of_ascii c) in
  if (48 <=? n)%Z && (n <=? 57)%Z then Some (n - 48)%Z else None.

(** Match one alternative at the start of [s]: the integer read so far and
    the rest of the string. *)
Fixpoint match_alt (alt : list cls) (acc : Z) (s : string)
  : option (Z * string) :=
  match alt with
  | [] => Some (acc, s)
  | k :: alt' =>
      match s with
      | EmptyString => None
      | String c s' =>
          match k with
          | Blank =>
              if Ascii.eqb c " " then match_alt alt' acc s' else None
          | Digit lo hi =>
              v ← digit_value c;
              if (lo <=? v)%Z && (v <=? hi)%Z
              then match_alt alt' (acc * 10 + v)%Z s' else None
          end
      end
  end.

Definition set_field (d : directive) (v : Z) (dt : datetime) : datetime :=
  let '(mk_datetime y mo da h mi s us) := dt in
  match d with
  | DY => mk_datetime v mo da h mi s us
  | Dm => mk_datetime y v da h mi s us
  | Dd => mk_datetime y mo v h mi s us
  | DH => mk_datetime y mo da v mi s us
  | DM => mk_datetime y mo da h v s us
  | DS => mk_datetime y mo da h mi v us
  end.

(** The pattern is compiled with [IGNORECASE]. *)
Definition lower (c : ascii) : ascii :=
  let n := nat_of_ascii c in
  if (65 <=? n)%nat && (n <=? 90)%nat then ascii_of_nat (n + 32) else c.

Fixpoint first_some {A B} (f : A -> option B) (l : list A) : option B :=
  match l with
  | [] => None
  | x :: l' => match f x with Some y => Some y | None => first_some f l' end
  end.

(** [format_regex.match(data_string)]: the first match in the regular
    expression's backtracking order, with the fields read and the
    unconsumed rest. *)
Fixpoint match_items (its : list item) (dt : datetime) (s : string)
  : option (datetime * string) :=
  match its with
  | [] => Some (dt, s)
  | Lit c :: its' =>
      match s with
      | String c' s' =>
          if Ascii.eqb (lower c) (lower c') then match_items its' dt s'
          else None
      | EmptyString => None
      end
  | Dir d :: its' =>
      first_some
        (fun alt =>
           '(v, rest) ← match_alt alt 0%Z s;
           match_items its' (set_field d v dt) rest)
        (alternatives d)
  end.

Definition defaults : datetime := mk_datetime 1900 1 1 0 0 0 0.

(** [datetime.strptime(data_string, format)]; [None] is [ValueError]
    (no match, unconverted data, or field values that are no date). *)
Definition strptime (data_string fmt : string) : option datetime :=
  its ← parse_format fmt;
  '(dt, rest) ← match_items its defaults data_string;
  match rest with
  | EmptyString => if Datetime.valid dt then Some dt else None
  | String _ _ => None
  end.

End Strptime.

(** ** The scanner ([src/backup_scanner.py]) *)

Module BackupScanner.

Local Open Scope string_scope.
Import Strptime.

Record t := mk {
  base_path : string;
  datetime_formats : list string
}.

Section Extractor.
(** [dateutil.parser.parse(filename, fuzzy=True)], an external library:
    [None] when it raises. *)
Variable fuzzy_parse : string -> option datetime.

(** The body of the [except ValueError] branch for one format. *)
Definition parse_part (fmt part : string) : option datetime :=
  match first_some (fun subpart => strptime subpart fmt)
                   (Py.split "_" part) with
  | Some dt => Some dt
  | None => strptime part fmt
  end.

Definition parse_within (fmt filename : string) : option datetime :=
  match first_some (parse_part fmt) (Py.split "." filename) with
  | Some dt => Some dt
  | None =>
      let base_name := hd "" (Py.split "." filename) in
      strptime base_name fmt
  end.

(** One iteration of [for fmt in self.datetime_formats]. *)
Definition parse_with_format (filename fmt : string) : option datetime :=
  match strptime filename fmt with
  | Some dt => Some dt
  | None => parse_within fmt filename
  end.

(** The loop over the configured formats, without the fallback. *)
Definition parse_with_formats (self : t) (filename : string)
  : option datetime :=
  first_some (parse_with_format filename) (datetime_formats self).

Definition _parse_datetime_from_filename (self : t) (filename : string)
  : option datetime :=
  match parse_with_formats self filename with
  | Some dt => Some dt
  | None => fuzzy_parse filename
  end.

(** The file system under the base path. *)
Record dir_entry := mk_entry {
  name : string;
  is_file : bool;
  st_size : option Z       (* [None]: [item.stat()] raises [OSError] *)
}.

Global Instance dir_entry_eq_dec : EqDecision dir_entry.
Proof. solve_decision. Defined.

Inductive node :=
| Absent
| NotADirectory
| Directory (entries : list dir_entry).

Definition MiB : Q := inject_Z (1024 * 1024).

Definition joinpath (a b : string) : string := a +:+ "/" +:+ b.

Section Scan.
(** [re.compile(filename_pattern).match], the regular expression
    engine being external. *)
Variable pattern_match : string -> bool.
Variable self : t.
Variable project_id : string.
Variable min_file_size_mb : Q.

Definition project_path : string := joinpath (base_path self) project_id.

Definition min_size_bytes : Q :=
  (min_file_size_mb * inject_Z 1024 * inject_Z 1024)%Q.

(** One iteration of [for item in project_path.iterdir()]. *)
Definition scan_item
    (acc : list BackupFile * list (string * Q)) (item : dir_entry)
  : list BackupFile * list (string * Q) :=
  let '(valid_backups, undersized_files) := acc in
  if negb (is_file item) then acc
  else if negb (pattern_match (name item)) then acc
  else match st_size item with
       | None => acc
       | Some size_bytes =>
           let size_mb := (inject_Z size_bytes / MiB)%Q in
           if DiskMonitor.Qltb (inject_Z size_bytes) min_size_bytes
           then (valid_backups,
                 (undersized_files ++ [(name item, size_mb)])%list)
           else match _parse_datetime_from_filename self (name item) with
                | None => acc
                | Some ts =>
                    ((valid_backups ++
                        [mk_BackupFile (joinpath project_path (name item))
                           (name item) ts size_bytes project_id])%list,
                     undersized_files)
                end
       end.

(** What one directory entry adds to [undersized_files] and to
    [valid_backups]. *)
Definition undersized_report (item : dir_entry) : option (string * Q) :=
  (scan_item ([], []) item).2 !! 0%nat.

Definition valid_report (item : dir_entry) : option BackupFile :=
  (scan_item ([], []) item).1 !! 0%nat.

Definition scan_project_backups (fs : string -> node)
  : list BackupFile * list (string * Q) :=
  match fs project_path with
  | Absent => ([], [])
  | NotADirectory => ([], [])
  | Directory entries => foldl scan_item ([], []) entries
  end.
End Scan.
End Extractor.

End BackupScanner.

(** ** The state store ([src/state_manager.py]) *)

Module State.

Local Open Scope string_scope.

Record ProjectState := mk_ProjectState {
  project_id : string;
  last_deletion_timestamp : option string;
  deleted_files_count : Z;
  deleted_files_size_bytes : Z
}.

Record GlobalState := mk_GlobalState {
  last_weekly_report_timestamp : option string;
  disk_alert_last_sent_date : option string;
  projects : gmap string ProjectState
}.

(** [GlobalState()] *)
Definition empty_state : GlobalState := mk_GlobalState None None ∅.

(** [ProjectState(project_id=project_id)] *)
Definition new_project (pid : string) : ProjectState :=
  mk_ProjectState pid None 0 0.

(** Returns the project's state and the global state, into which a fresh
    entry was stored when there was none. *)
Definition get_project_state (self : GlobalState) (pid : string)
  : ProjectState * GlobalState :=
  match projects self !! pid with
  | Some ps => (ps, self)
  | None =>
      (new_project pid,
       mk_GlobalState (last_weekly_report_timestamp self)
                      (disk_alert_last_sent_date self)
                      (<[pid := new_project pid]> (projects self)))
  end.

(** [GlobalState.record_deletion]; [now] is [datetime.now().isoformat()].
    The object returned by [get_project_state] is the one stored in the
    dict, so updating it updates the dict entry. *)
Definition record_deletion (self : GlobalState) (pid : string)
    (file_size_bytes : Z) (now : string) : GlobalState :=
  let '(ps, self) := get_project_state self pid in
  let ps := mk_ProjectState (project_id ps) (Some now)
              (deleted_files_count ps + 1)
              (deleted_files_size_bytes ps + file_size_bytes) in
  mk_GlobalState (last_weekly_report_timestamp self)
                 (disk_alert_last_sent_date self)
                 (<[pid := ps]> (projects self)).

(** [record_deletion] called for one project with each (size, time) of
    [events] in turn. *)
Definition record_all (st : GlobalState) (pid : string)
    (events : list (Z * string)) : GlobalState :=
  foldl (fun st ev => record_deletion st pid ev.1 ev.2) st events.

(** JSON documents, as far as the state file uses them. *)
#[warnings="-register-all"]
Inductive json :=
| JNull
| JStr (s : string)
| JInt (n : Z)
| JObj (members : gmap string json).

(** The state file: [json.load] reads back what [json.dump] wrote. *)
Inductive file :=
| NoFile
| Corrupt                 (* no JSON document: [JSONDecodeError] *)
| Document (data : json).

Definition json_of_optstr (o : option string) : json :=
  match o with Some s => JStr s | None => JNull end.

(** [dataclasses.asdict(pstate)] *)
Definition asdict (ps : ProjectState) : json :=
  JObj (<["project_id" := JStr (project_id ps)]>
        (<["last_deletion_timestamp" :=
             json_of_optstr (last_deletion_timestamp ps)]>
        (<["deleted_files_count" := JInt (deleted_files_count ps)]>
        (<["deleted_files_size_bytes" :=
             JInt (deleted_files_size_bytes ps)]> ∅)))).

(** [state_dict] of [save_state] *)
Definition state_dict (st : GlobalState) : json :=
  JObj (<["last_weekly_report_timestamp" :=
            json_of_optstr (last_weekly_report_timestamp st)]>
        (<["disk_alert_last_sent_date" :=
             json_of_optstr (disk_alert_last_sent_date st)]>
        (<["projects" := JObj (asdict <$> projects st)]> ∅))).

(** Reading a field of a declared type from a JSON value. Python stores
    whatever value the file holds; values of another JSON type than the
    field's annotation are outside the model and read as a failed load. *)
Definition optstr_of_json (o : option json) : option (option string) :=
  match o with
  | None | Some JNull => Some None
  | Some (JStr s) => Some (Some s)
  | Some _ => None
  end.

Definition int_of_json (o : option json) (dflt : Z) : option Z :=
  match o with
  | None => Some dflt
  | Some (JInt n) => Some n
  | Some _ => None
  end.

Definition field_names : gset string :=
  {[ "project_id"; "last_deletion_timestamp";
     "deleted_files_count"; "deleted_files_size_bytes" ]}.

(** [ProjectState] called with the members of [pstate_dict] as keyword
    arguments: [TypeError] ([None]) on an unexpected
    keyword, on a missing [project_id] and on a value that is no dict. *)
Definition ProjectState_of_kwargs (j : json) : option ProjectState :=
  match j with
  | JObj kw =>
      if bool_decide (dom kw ⊆ field_names) then
        match kw !! "project_id" with
        | Some (JStr pid) =>
            ts ← optstr_of_json (kw !! "last_deletion_timestamp");
            n ← int_of_json (kw !! "deleted_files_count") 0;
            sz ← int_of_json (kw !! "deleted_files_size_bytes") 0;
            Some (mk_ProjectState pid ts n sz)
        | _ => None
        end
      else None
  | _ => None
  end.

(** The [try] block of [_load_state]; [None] is an exception raised in it. *)
Definition state_of_json (data : json) : option GlobalState :=
  match data with
  | JObj d =>
      projects_data ←
        match d !! "projects" with
        | None => Some ∅
        | Some (JObj m) => Some m
        | Some _ => None
        end;
      if bool_decide (map_Forall
                        (fun _ j => is_Some (ProjectState_of_kwargs j))
                        projects_data)
      then
        w ← optstr_of_json (d !! "last_weekly_report_timestamp");
        a ← optstr_of_json (d !! "disk_alert_last_sent_date");
        Some (mk_GlobalState w a (omap ProjectState_of_kwargs projects_data))
      else None
  | _ => None
  end.

(** [ProjectState.reset_deletion_stats] *)
Definition reset_deletion_stats (ps : ProjectState) : ProjectState :=
  mk_ProjectState (project_id ps) (last_deletion_timestamp ps) 0 0.

(** [GlobalState.reset_all_deletion_stats] *)
Definition reset_all_deletion_stats (self : GlobalState) : GlobalState :=
  mk_GlobalState (last_weekly_report_timestamp self)
                 (disk_alert_last_sent_date self)
                 (reset_deletion_stats <$> projects self).

(** [today] is [date.today().isoformat()]. *)
Definition should_send_disk_alert (self : GlobalState) (today : string) : bool :=
  bool_decide (disk_alert_last_sent_date self <> Some today).

Definition mark_disk_alert_sent (self : GlobalState) (today : string)
  : GlobalState :=
  mk_GlobalState (last_weekly_report_timestamp self) (Some today)
                 (projects self).

Definition clear_disk_alert (self : GlobalState) : GlobalState :=
  mk_GlobalState (last_weekly_report_timestamp self) None (projects self).

Definition mark_weekly_report_sent (self : GlobalState) (now : string)
  : GlobalState :=
  mk_GlobalState (Some now) (disk_alert_last_sent_date self) (projects self).

Definition _load_state (state_file : file) : GlobalState :=
  match state_file with
  | NoFile => empty_state
  | Corrupt => empty_state
  | Document data => default empty_state (state_of_json data)
  end.

End State.

Module StateManager.

Record t := mk {
  state_file : State.file;
  state : State.GlobalState
}.

(** [StateManager(state_file_path)] on a disk holding [f]. *)
Definition init (f : State.file) : t := mk f (State._load_state f).

(** [save_state]; [write_ok = false] is a write that raises, which is
    logged and leaves the previous file in place. *)
Definition save_state (self : t) (write_ok : bool) : t :=
  if write_ok
  then mk (State.Document (State.state_dict (state self))) (state self)
  else self.

Definition record_deletion (self : t) (pid : string) (file_size_bytes : Z)
    (now : string) (write_ok : bool) : t :=
  save_state
    (mk (state_file self)
        (State.record_deletion (state self) pid file_size_bytes now))
    write_ok.

Definition get_project_state (self : t) (pid : string)
  : State.ProjectState * t :=
  let '(ps, st) := State.get_project_state (state self) pid in
  (ps, mk (state_file self) st).

Definition should_send_disk_alert (self : t) (today : string) : bool :=
  State.should_send_disk_alert (state self) today.

Definition mark_disk_alert_sent (self : t) (today : string) (write_ok : bool)
  : t :=
  save_state
    (mk (state_file self) (State.mark_disk_alert_sent (state self) today))
    write_ok.

Definition clear_disk_alert (self : t) (write_ok : bool) : t :=
  save_state (mk (state_file self) (State.clear_disk_alert (state self)))
             write_ok.

Definition mark_weekly_report_sent (self : t) (now : string) (write_ok : bool)
  : t :=
  save_state
    (mk (state_file self) (State.mark_weekly_report_sent (state self) now))
    write_ok.

Definition reset_all_deletion_stats (self : t) (write_ok : bool) : t :=
  save_state
    (mk (state_file self) (State.reset_all_deletion_stats (state self)))
    write_ok.

End StateManager.

(** ** Configuration constraints ([src/config_validator.py]) *)

Module Config.

Record RetentionPolicy := mk_RetentionPolicy {
  daily : Z;
  weekly : Z;
  monthly : Z
}.

(** The [ge=0] constraints of the three fields; [None] is the
    [ValidationError]. *)
Definition validate_RetentionPolicy (p : RetentionPolicy)
  : option RetentionPolicy :=
  if (0 <=? daily p) && (0 <=? weekly p) && (0 <=? monthly p)
  then Some p else None.

(** [validate_unique_project_ids] on the ids [[p.id for p in v]];
    [None] is the [ValueError]. *)
Definition validate_unique_project_ids (ids : list string)
  : option (list string) :=
  if bool_decide (length ids <> size (list_to_set ids : gset string))
  then None else Some ids.

End Config.

(** ** The orchestrator ([run.py]) *)

Module BackupRotator.

(** [retention = project_config.retention or self.config.default_retention]
    followed by [create_rotation_engine(daily=..., weekly=..., monthly=...)];
    a model instance is always truthy. *)
Definition engine_for (retention : option Config.RetentionPolicy)
    (default_retention : Config.RetentionPolicy) : RotationEngine.t :=
  let retention := match retention with
                   | Some r => r
                   | None => default_retention
                   end in
  RotationEngine.create_rotation_engine
    (Some (Config.daily retention)) (Some (Config.weekly retention))
    (Some (Config.monthly retention)) 7 4 12.

(** The state of the deletion loop of [process_project]. *)
Record progress := mk_progress {
  deleted_count : Z;
  deleted_size : Z;
  state_manager : StateManager.t;
  failure_alerts : list string   (* file names sent to the notifier *)
}.

Section Deletions.
(** The environment: whether [backup.path.unlink()] returns, the clock at
    the moment a deletion is recorded, and whether the state file can be
    written then. *)
Variable unlink_ok : BackupFile -> bool.
Variable now : BackupFile -> string.
Variable write_ok : BackupFile -> bool.
Variable dry_run : bool.
Variable project_id : string.

(** One iteration of [for backup in deletions]. *)
Definition delete_one (acc : progress) (backup : BackupFile) : progress :=
  if dry_run then
    mk_progress (deleted_count acc + 1)
                (deleted_size acc + size_bytes backup)
                (state_manager acc) (failure_alerts acc)
  else if unlink_ok backup then
    mk_progress (deleted_count acc + 1)
                (deleted_size acc + size_bytes backup)
                (StateManager.record_deletion (state_manager acc) project_id
                   (size_bytes backup) (now backup) (write_ok backup))
                (failure_alerts acc)
  else
    mk_progress (deleted_count acc) (deleted_size acc) (state_manager acc)
                (failure_alerts acc ++ [filename backup]).

Definition execute_deletions (sm : StateManager.t)
    (deletions : list BackupFile) : progress :=
  foldl delete_one (mk_progress 0 0 sm []) deletions.
End Deletions.

(** What one run of [check_disk_space] does to the store, and whether it
    sent the low-disk alert. *)
Definition check_disk_space (monitor : DiskMonitor.t) (today : string)
    (env1 env2 : DiskMonitor.probe) (write_ok : bool) (sm : StateManager.t)
  : StateManager.t * bool :=
  if (DiskMonitor.should_alert monitor env1).1.1.1 then
    if StateManager.should_send_disk_alert sm today
    then (StateManager.mark_disk_alert_sent sm today write_ok, true)
    else (sm, false)
  else
    if DiskMonitor.is_resolved monitor env2
    then (StateManager.clear_disk_alert sm write_ok, false)
    else (sm, false).

End BackupRotator.

(** ** Worked examples *)

Module Examples.
Import RotationEngine.
Local Open Scope string_scope.

Definition at_day (y m d : Z) : datetime := mk_datetime y m d 3 0 0 0.

Definition bk (name : string) (t : datetime) : BackupFile :=
  mk_BackupFile ("/backups/p1/" +:+ name) name t 1048576 "p1".

Definition jan10 := bk "b_2024-01-10" (at_day 2024 1 10).
Definition jan09 := bk "b_2024-01-09" (at_day 2024 1 9).
Definition jan08 := bk "b_2024-01-08" (at_day 2024 1 8).
Definition jan03 := bk "b_2024-01-03" (at_day 2024 1 3).
Definition dec15 := bk "b_2023-12-15" (at_day 2023 12 15).

Definition five : list BackupFile := [jan03; jan10; dec15; jan08; jan09].

(** The same file seen by another scan: taken two hours later in the day,
    with another size. *)
Definition rescan (b : BackupFile) : BackupFile :=
  let t := timestamp b in
  mk_BackupFile (path b) (filename b)
    (mk_datetime (Datetime.year t) (Datetime.month t) (Datetime.day t)
       (Datetime.hour t + 2) (Datetime.minute t) (Datetime.second t)
       (Datetime.microsecond t))
    (size_bytes b * 2) (project_id b).

Definition scanner : BackupScanner.t :=
  BackupScanner.mk "/backups" ["%Y%m%d_%H%M%S"; "%Y-%m-%d"].

Definition small := BackupScanner.mk_entry "2024-01-15.tar.gz" true (Some 524288).
Definition large := BackupScanner.mk_entry "2024-01-16.tar.gz" true (Some 2097152).
Definition notes := BackupScanner.mk_entry "notes.txt" true (Some 10).

(** A disk on which [/backups/p1] holds three files. *)
Definition disk (p : string) : BackupScanner.node :=
  if String.eqb p "/backups/p1"
  then BackupScanner.Directory [small; notes; large]
  else BackupScanner.Absent.

(** A fallback parser that recognises nothing. *)
Definition no_fuzzy (_ : string) : option datetime := None.

(** What dateutil's fuzzy parser answers on the two names of the extraction
    example: it reads the date 20240115 and the time 030000 out of the
    first, and finds no date in [nightly.bak]. *)
Definition dateutil_answers (n : string) : option datetime :=
  if String.eqb n "backup_20240115_030000.tar.gz"
  then Some (mk_datetime 2024 1 15 3 0 0 0)
  else None.

(** A pattern that accepts the names ending in [.tar.gz]. *)
Definition tarball (n : string) : bool :=
  String.eqb (String.substring (String.length n - 7) 7 n) ".tar.gz".

End Examples.

(** * Properties *)

(** ** Tuple comparison is a total order *)

Section TupleOrder.

Lemma tuple_compare_refl a : Py.tuple_compare a a = Eq.
Proof. induction a as [|x a IH]; simpl; [done|]. by rewrite Z.compare_refl. Qed.

Lemma tuple_compare_eq a b : Py.tuple_compare a b = Eq -> a = b.
Proof.
  revert b. induction a as [|x a IH]; intros [|y b]; simpl; try done.
  destruct (Z.compare_spec x y) as [Hxy|Hxy|Hxy]; try done.
  intros Hab. f_equal; auto.
Qed.

Lemma tuple_compare_opp a b :
  Py.tuple_compare b a = CompOpp (Py.tuple_compare a b).
Proof.
  revert b. induction a as [|x a IH]; intros [|y b]; simpl; try done.
  rewrite (Z.compare_antisym x y).
  destruct (x ?= y); simpl; auto.
Qed.

Lemma tuple_compare_trans a b c :
  Py.tuple_compare a b = Lt -> Py.tuple_compare b c = Lt ->
  Py.tuple_compare a c = Lt.
Proof.
  revert b c. induction a as [|x a IH]; intros [|y b] [|z c]; simpl; try done.
  destruct (Z.compare_spec x y) as [Hxy|Hxy|Hxy],
           (Z.compare_spec y z) as [Hyz|Hyz|Hyz]; try done; subst.
  - rewrite Z.compare_refl. apply IH.
  - intros _ _. by apply Z.compare_lt_iff in Hyz as ->.
  - intros _ _. by apply Z.compare_lt_iff in Hxy as ->.
  - intros _ _. assert (x < z) as ->%Z.compare_lt_iff by lia. done.
Qed.

Lemma tuple_compare_le_lt_trans a b c :
  Py.tuple_compare a b <> Gt -> Py.tuple_compare b c = Lt ->
  Py.tuple_compare a c = Lt.
Proof.
  intros Hab Hbc. destruct (Py.tuple_compare a b) eqn:E; try done.
  - by apply tuple_compare_eq in E as ->.
  - eauto using tuple_compare_trans.
Qed.

Lemma tuple_compare_lt_le_trans a b c :
  Py.tuple_compare a b = Lt -> Py.tuple_compare b c <> Gt ->
  Py.tuple_compare a c = Lt.
Proof.
  intros Hab Hbc. destruct (Py.tuple_compare b c) eqn:E; try done.
  - by apply tuple_compare_eq in E as <-.
  - eauto using tuple_compare_trans.
Qed.

End TupleOrder.

(** ** [sorted] and [max] *)

Section KeyedFacts.
Context {A : Type} (key : A -> list Z).

#[local] Abbreviation ltb := (Py.key_ltb key).

Lemma key_ltb_irrefl a : ltb a a = false.
Proof. unfold Py.key_ltb. by rewrite tuple_compare_refl. Qed.

Lemma key_ltb_asym a b : ltb a b = true -> ltb b a = false.
Proof.
  unfold Py.key_ltb. rewrite (tuple_compare_opp (key a) (key b)).
  by destruct (Py.tuple_compare (key a) (key b)).
Qed.

Lemma key_ltb_trans a b c : ltb a b = true -> ltb b c = true -> ltb a c = true.
Proof.
  unfold Py.key_ltb. intros Hab Hbc.
  destruct (Py.tuple_compare (key a) (key b)) eqn:E1; try done.
  destruct (Py.tuple_compare (key b) (key c)) eqn:E2; try done.
  by rewrite (tuple_compare_trans _ _ _ E1 E2).
Qed.

(** [key a <= key b] and [key b < key c] give [key a < key c]. *)
Lemma key_ltb_le_lt a b c :
  ltb b a = false -> ltb b c = true -> ltb a c = true.
Proof.
  unfold Py.key_ltb. intros Hba Hbc.
  destruct (Py.tuple_compare (key b) (key c)) eqn:E2; try done.
  rewrite (tuple_compare_le_lt_trans (key a) (key b) (key c)); [done| |done].
  rewrite (tuple_compare_opp (key b) (key a)).
  by destruct (Py.tuple_compare (key b) (key a)).
Qed.

Lemma key_ltb_lt_le a b c :
  ltb a b = true -> ltb c b = false -> ltb a c = true.
Proof.
  unfold Py.key_ltb. intros Hab Hcb.
  destruct (Py.tuple_compare (key a) (key b)) eqn:E1; try done.
  rewrite (tuple_compare_lt_le_trans (key a) (key b) (key c)); [done|done|].
  rewrite (tuple_compare_opp (key c) (key b)).
  by destruct (Py.tuple_compare (key c) (key b)).
Qed.

(** [key b <= key a] is transitive. *)
Lemma key_geb_trans a b c :
  ltb a b = false -> ltb b c = false -> ltb a c = false.
Proof.
  intros Hab Hbc. destruct (ltb a c) eqn:E; [|done].
  by rewrite (key_ltb_lt_le a c b E Hbc) in Hab.
Qed.

(** Distinct keys are strictly ordered one way or the other. *)
Lemma key_ltb_total a b : key a <> key b -> ltb a b = false -> ltb b a = true.
Proof.
  unfold Py.key_ltb. intros Hne.
  rewrite (tuple_compare_opp (key a) (key b)).
  destruct (Py.tuple_compare (key a) (key b)) eqn:E; try done.
  by apply tuple_compare_eq in E.
Qed.

Lemma insert_desc_perm x l : Py.insert_desc key x l ≡ₚ x :: l.
Proof.
  induction l as [|y l IH]; simpl; [done|].
  destruct (ltb x y); [|done].
  rewrite IH. apply Permutation_swap.
Qed.

Lemma sorted_rev_perm l : Py.sorted_rev key l ≡ₚ l.
Proof.
  induction l as [|x l IH]; simpl; [done|].
  by rewrite insert_desc_perm, IH.
Qed.

Lemma sorted_rev_elem_of x l : x ∈ Py.sorted_rev key l <-> x ∈ l.
Proof. by rewrite sorted_rev_perm. Qed.

Lemma sorted_rev_length l : length (Py.sorted_rev key l) = length l.
Proof. by rewrite sorted_rev_perm. Qed.

#[local] Abbreviation descending := (Py.descending key).

Lemma insert_desc_descending x l :
  descending l -> descending (Py.insert_desc key x l).
Proof.
  induction 1 as [|y l Hl IH Hy]; simpl.
  - repeat constructor.
  - destruct (ltb x y) eqn:E.
    + constructor; [done|].
      rewrite insert_desc_perm. constructor; [by apply key_ltb_asym|done].
    + constructor; [by constructor|].
      constructor; [done|].
      eapply Forall_impl; [exact Hy|]. simpl. intros z Hz.
      eapply key_geb_trans; eauto.
Qed.

Lemma sorted_rev_descending l : descending (Py.sorted_rev key l).
Proof.
  induction l as [|x l IH]; simpl; [constructor|].
  by apply insert_desc_descending.
Qed.

Lemma descending_app l1 l2 a b :
  descending (l1 ++ l2) -> a ∈ l1 -> b ∈ l2 -> ltb a b = false.
Proof.
  induction l1 as [|x l1 IH]; simpl; intros Hs Ha Hb.
  - by apply elem_of_nil in Ha.
  - apply StronglySorted_inv in Hs as [Hs Hx].
    apply elem_of_cons in Ha as [->|Ha]; [|by apply IH].
    rewrite Forall_forall in Hx. apply Hx, elem_of_app. by right.
Qed.

Lemma max_from_elem_of best l :
  Py.max_from key best l = best \/ Py.max_from key best l ∈ l.
Proof.
  revert best. induction l as [|x l IH]; intros best; simpl; [by left|].
  destruct (IH (if ltb best x then x else best)) as [-> | H].
  - destruct (ltb best x); [right; left | by left].
  - right. by right.
Qed.

Lemma max_from_ge_best best l : ltb (Py.max_from key best l) best = false.
Proof.
  revert best. induction l as [|x l IH]; intros best; simpl.
  - apply key_ltb_irrefl.
  - destruct (ltb best x) eqn:E; [|done].
    destruct (ltb (Py.max_from key x l) best) eqn:E2; [|done].
    specialize (IH x). by rewrite (key_ltb_trans _ _ _ E2 E) in IH.
Qed.

Lemma max_from_ge best l x :
  x ∈ l -> ltb (Py.max_from key best l) x = false.
Proof.
  revert best. induction l as [|y l IH]; intros best Hx; simpl.
  - by apply elem_of_nil in Hx.
  - apply elem_of_cons in Hx as [->|Hx]; [|by apply IH].
    destruct (ltb best y) eqn:E; [apply max_from_ge_best|].
    eapply key_geb_trans; [apply max_from_ge_best|done].
Qed.

Lemma max_by_is_Some l : l <> [] -> is_Some (Py.max_by key l).
Proof. destruct l; [done|]. simpl. eauto. Qed.

Lemma max_by_elem_of l r : Py.max_by key l = Some r -> r ∈ l.
Proof.
  destruct l as [|x l]; simpl; [done|]. intros [= <-].
  destruct (max_from_elem_of x l) as [-> | H]; [left | by right].
Qed.

Lemma max_by_ge l r x : Py.max_by key l = Some r -> x ∈ l -> ltb r x = false.
Proof.
  destruct l as [|y l]; simpl; [done|]. intros [= <-] Hx.
  apply elem_of_cons in Hx as [->|Hx].
  - apply max_from_ge_best.
  - by apply max_from_ge.
Qed.

End KeyedFacts.

Section Slices.
Context {A : Type}.

Lemma slice_to_take (n : Z) (l : list A) :
  exists k, Py.slice_to n l = take k l /\ (0 <= n -> k = Z.to_nat n).
Proof.
  unfold Py.slice_to. destruct (Z.leb_spec 0 n); eexists; split; eauto; lia.
Qed.

Lemma slice_to_elem_of (n : Z) (l : list A) x : x ∈ Py.slice_to n l -> x ∈ l.
Proof.
  destruct (slice_to_take n l) as (k & -> & _).
  rewrite <-(take_drop k l) at 2. set_solver.
Qed.

Lemma slice_to_length (n : Z) (l : list A) :
  0 <= n -> Z.of_nat (length (Py.slice_to n l)) <= n.
Proof.
  intros Hn. destruct (slice_to_take n l) as (k & -> & Hk).
  rewrite length_take, (Hk Hn). lia.
Qed.

End Slices.

(** ** Sets of backup files and buckets *)

Section Containers.

Lemma elem_of_List_filter {A} (f : A -> bool) (l : list A) x :
  x ∈ List.filter f l <-> x ∈ l /\ f x = true.
Proof. rewrite !list_elem_of_In. apply filter_In. Qed.

Lemma omap_length_all_Some {A B} (f : A -> option B) (l : list A) :
  Forall (fun x => is_Some (f x)) l -> length (omap f l) = length l.
Proof.
  induction 1 as [|x l [y Hy] _ IH]; simpl; [done|].
  rewrite Hy. simpl. f_equal. exact IH.
Qed.

Lemma filter_all {A} (P : A -> Prop) `{forall x, Decision (P x)} (l : list A) :
  Forall P l -> filter P l = l.
Proof.
  induction 1 as [|x l Hx _ IH]; [done|].
  rewrite filter_cons_True by done. by rewrite IH.
Qed.

Lemma contains_spec (b : BackupFile) (s : gmap string BackupFile) :
  FileSet.contains b s = true <-> path b ∈ dom s.
Proof.
  unfold FileSet.contains. rewrite bool_decide_eq_true. by rewrite elem_of_dom.
Qed.

Lemma dom_add (b : BackupFile) (s : gmap string BackupFile) :
  dom (FileSet.add b s) = {[path b]} ∪ dom s.
Proof.
  unfold FileSet.add. destruct (FileSet.contains b s) eqn:E.
  - apply contains_spec in E. set_solver.
  - by rewrite dom_insert_L.
Qed.

Lemma dom_update (l : list BackupFile) (s : gmap string BackupFile) :
  dom (FileSet.update l s) = list_to_set (path <$> l) ∪ dom s.
Proof.
  unfold FileSet.update. revert s.
  induction l as [|b l IH]; intros s; simpl; [set_solver|].
  rewrite IH, dom_add. set_solver.
Qed.

Context (key : datetime -> Z * Z).

#[local] Abbreviation in_bucket k :=
  (fun b : BackupFile => bool_decide (key (timestamp b) = k)).

Lemma buckets_foldl_lookup (l : list BackupFile)
    (m : gmap (Z * Z) (list BackupFile)) k :
  foldl (RotationEngine.bucket_append key) m l !! k =
  match List.filter (in_bucket k) l with
  | [] => m !! k
  | bs => Some (default [] (m !! k) ++ bs)
  end.
Proof.
  revert m. induction l as [|b l IH]; intros m; simpl; [done|].
  rewrite IH. unfold RotationEngine.bucket_append at 1 2.
  destruct (decide (key (timestamp b) = k)) as [->|Hne].
  - rewrite bool_decide_eq_true_2 by done. rewrite lookup_insert_eq. simpl.
    destruct (List.filter _ l); [done|]. by rewrite <-app_assoc.
  - rewrite bool_decide_eq_false_2 by done.
    by rewrite lookup_insert_ne.
Qed.

Lemma buckets_lookup (l : list BackupFile) (k : Z * Z) :
  RotationEngine.buckets key l !! k =
  match List.filter (in_bucket k) l with
  | [] => None
  | bs => Some bs
  end.
Proof.
  unfold RotationEngine.buckets. rewrite buckets_foldl_lookup.
  by rewrite lookup_empty.
Qed.

Lemma buckets_default (l : list BackupFile) (k : Z * Z) :
  default [] (RotationEngine.buckets key l !! k) = List.filter (in_bucket k) l.
Proof. rewrite buckets_lookup. by destruct (List.filter _ l). Qed.

Lemma elem_of_bucket (l : list BackupFile) (k : Z * Z) (b : BackupFile) :
  b ∈ default [] (RotationEngine.buckets key l !! k) <->
  b ∈ l /\ key (timestamp b) = k.
Proof.
  rewrite buckets_default, elem_of_List_filter.
  by rewrite bool_decide_eq_true.
Qed.

Lemma elem_of_dom_buckets (l : list BackupFile) (k : Z * Z) :
  k ∈ dom (RotationEngine.buckets key l) <->
  exists b, b ∈ l /\ key (timestamp b) = k.
Proof.
  rewrite elem_of_dom, buckets_lookup.
  destruct (List.filter _ l) as [|b bs] eqn:E.
  - split; [by intros [? ?]|]. intros (b & Hb & Hk).
    assert (b ∈ List.filter (in_bucket k) l) as Hin.
    { apply elem_of_List_filter. by rewrite bool_decide_eq_true. }
    rewrite E in Hin. by apply elem_of_nil in Hin.
  - split; [|by eauto]. intros _. exists b.
    assert (b ∈ List.filter (in_bucket k) l) as Hin by (rewrite E; left).
    apply elem_of_List_filter in Hin. by rewrite bool_decide_eq_true in Hin.
Qed.

Lemma sorted_keys_elem_of (count : Z) (m : gmap (Z * Z) (list BackupFile)) k :
  k ∈ RotationEngine.sorted_keys count m -> k ∈ dom m.
Proof.
  unfold RotationEngine.sorted_keys. intros H%slice_to_elem_of.
  rewrite sorted_rev_elem_of in H. by rewrite elem_of_elements in H.
Qed.

Lemma sorted_keys_length (count : Z) (m : gmap (Z * Z) (list BackupFile)) :
  0 <= count -> Z.of_nat (length (RotationEngine.sorted_keys count m)) <= count.
Proof. apply slice_to_length. Qed.

Context (prefer : datetime -> bool).

#[local] Abbreviation ts_ltb := (Py.key_ltb by_timestamp).

(** What one iteration of a tier's loop picks from a bucket. *)
Lemma pick_spec (l : list BackupFile) (k : Z * Z) (r : BackupFile) :
  RotationEngine.pick prefer (RotationEngine.buckets key l) k = Some r ->
  r ∈ l /\ key (timestamp r) = k /\
  ((exists b, b ∈ l /\ key (timestamp b) = k /\ prefer (timestamp b) = true) ->
     prefer (timestamp r) = true /\
     forall b, b ∈ l -> key (timestamp b) = k ->
               prefer (timestamp b) = true -> ts_ltb r b = false) /\
  ((forall b, b ∈ l -> key (timestamp b) = k -> prefer (timestamp b) = false) ->
     forall b, b ∈ l -> key (timestamp b) = k -> ts_ltb r b = false).
Proof.
  unfold RotationEngine.pick.
  assert (forall b,
            b ∈ List.filter (fun b => prefer (timestamp b))
                  (default [] (RotationEngine.buckets key l !! k)) <->
            (b ∈ l /\ key (timestamp b) = k) /\ prefer (timestamp b) = true)
    as Hpref.
  { intros b. by rewrite elem_of_List_filter, elem_of_bucket. }
  destruct (List.filter (fun b => prefer (timestamp b)) _) as [|p ps];
    intros Hmax.
  - pose proof (max_by_elem_of _ _ _ Hmax) as Hr.
    apply elem_of_bucket in Hr as [Hr Hk]. split_and!; [done|done| |].
    + intros (b & Hb & Hbk & Hbp).
      assert (b ∈ @nil BackupFile) as Hnil by (apply Hpref; done).
      by apply elem_of_nil in Hnil.
    + intros _ b Hb Hbk. eapply max_by_ge; [exact Hmax|].
      by apply elem_of_bucket.
  - pose proof (max_by_elem_of _ _ _ Hmax) as Hr.
    apply Hpref in Hr as [[Hr Hk] Hp]. split_and!; [done|done| |].
    + intros _. split; [done|]. intros b Hb Hbk Hbp.
      eapply max_by_ge; [exact Hmax|]. by apply Hpref.
    + intros Hnone. by rewrite (Hnone r Hr Hk) in Hp.
Qed.

Lemma pick_is_Some (l : list BackupFile) (k : Z * Z) :
  k ∈ dom (RotationEngine.buckets key l) ->
  is_Some (RotationEngine.pick prefer (RotationEngine.buckets key l) k).
Proof.
  intros (b & Hb & Hk)%elem_of_dom_buckets. unfold RotationEngine.pick.
  destruct (List.filter _ _) eqn:E.
  - apply max_by_is_Some. intros Hnil.
    assert (b ∈ default [] (RotationEngine.buckets key l !! k)) as Hin
      by by apply elem_of_bucket.
    rewrite Hnil in Hin. by apply elem_of_nil in Hin.
  - by apply max_by_is_Some.
Qed.

Lemma keep_loop_Some (m : gmap (Z * Z) (list BackupFile))
    (keys : list (Z * Z)) (keep : gmap string BackupFile) :
  Forall (fun k => is_Some (RotationEngine.pick prefer m k)) keys ->
  RotationEngine.keep_loop prefer m keys keep =
  Some (FileSet.update (omap (RotationEngine.pick prefer m) keys) keep).
Proof.
  intros H. revert keep. induction H as [|k keys [b Hb] _ IH]; intros keep.
  - done.
  - simpl. rewrite Hb. simpl. apply IH.
Qed.

Lemma picks_all_Some (count : Z) (l : list BackupFile) :
  Forall (fun k => is_Some (RotationEngine.pick prefer
                              (RotationEngine.buckets key l) k))
         (RotationEngine.sorted_keys count (RotationEngine.buckets key l)).
Proof.
  apply Forall_forall. intros k Hk.
  by apply pick_is_Some, sorted_keys_elem_of with count.
Qed.

Lemma picks_length (count : Z) (l : list BackupFile) :
  length (omap (RotationEngine.pick prefer (RotationEngine.buckets key l))
            (RotationEngine.sorted_keys count (RotationEngine.buckets key l)))
  = length (RotationEngine.sorted_keys count (RotationEngine.buckets key l)).
Proof.
  apply omap_length_all_Some, picks_all_Some.
Qed.

Lemma elem_of_picks (count : Z) (l : list BackupFile) (r : BackupFile) :
  r ∈ omap (RotationEngine.pick prefer (RotationEngine.buckets key l))
        (RotationEngine.sorted_keys count (RotationEngine.buckets key l)) <->
  exists k, k ∈ RotationEngine.sorted_keys count (RotationEngine.buckets key l)
            /\ RotationEngine.pick prefer (RotationEngine.buckets key l) k
               = Some r.
Proof. apply list_elem_of_omap. Qed.

End Containers.

(** ** The retention engine *)

Section Engine.
Import RotationEngine.

#[local] Abbreviation ts_ltb := (Py.key_ltb by_timestamp).

Lemma by_timestamp_inj a b :
  by_timestamp a = by_timestamp b -> timestamp a = timestamp b.
Proof.
  unfold by_timestamp, Datetime.as_tuple.
  destruct (timestamp a), (timestamp b). simpl. congruence.
Qed.

Lemma sorted_backups_elem_of b (backups : list BackupFile) :
  b ∈ sorted_backups backups <-> b ∈ backups.
Proof. apply sorted_rev_elem_of. Qed.

Lemma daily_backups_elem_of self (backups : list BackupFile) b :
  b ∈ daily_backups self backups -> b ∈ backups.
Proof. intros H%slice_to_elem_of. by rewrite sorted_backups_elem_of in H. Qed.

Lemma weekly_backups_elem_of self (backups : list BackupFile) b :
  b ∈ weekly_backups self backups -> b ∈ backups.
Proof.
  intros (k & _ & Hp)%elem_of_picks.
  apply pick_spec in Hp as (Hb & _). by rewrite sorted_backups_elem_of in Hb.
Qed.

Lemma monthly_backups_elem_of self (backups : list BackupFile) b :
  b ∈ monthly_backups self backups -> b ∈ backups.
Proof.
  intros (k & _ & Hp)%elem_of_picks.
  apply pick_spec in Hp as (Hb & _). by rewrite sorted_backups_elem_of in Hb.
Qed.

(** The loops never meet an empty bucket: [keep_backups] is reached, and
    holds exactly the records of the three tiers. *)
Lemma keep_backups_Some self (backups : list BackupFile) :
  exists keep, keep_backups self backups = Some keep /\
               dom keep = kept_paths self backups.
Proof.
  unfold keep_backups, sorted_weeks, sorted_months,
    weekly_buckets, monthly_buckets.
  rewrite keep_loop_Some by apply picks_all_Some. simpl.
  rewrite keep_loop_Some by apply picks_all_Some.
  eexists. split; [done|].
  rewrite !dom_update. unfold FileSet.empty. rewrite dom_empty_L.
  unfold kept_paths, weekly_backups, monthly_backups, sorted_weeks,
    sorted_months, weekly_buckets, monthly_buckets.
  set_solver.
Qed.

(** [calculate_deletions] always returns: the sorted input without the
    records whose path was kept. *)
Lemma calculate_deletions_Some self (backups : list BackupFile) :
  exists dels, calculate_deletions self backups = Some dels /\
    forall b, b ∈ dels <-> b ∈ backups /\ path b ∉ kept_paths self backups.
Proof.
  destruct (keep_backups_Some self backups) as (keep & Hkeep & Hdom).
  destruct backups as [|b0 backups].
  - exists []. split; [done|]. intros b. split; [by intros ?%elem_of_nil|].
    by intros [?%elem_of_nil _].
  - unfold calculate_deletions. rewrite Hkeep.
    exists (List.filter (fun b => negb (FileSet.contains b keep))
              (sorted_backups (b0 :: backups))).
    split; [done|].
    intros b. rewrite elem_of_List_filter, sorted_backups_elem_of.
    rewrite negb_true_iff, <-not_true_iff_false, contains_spec, Hdom. done.
Qed.

Lemma calculate_deletions_eq self (backups : list BackupFile) :
  calculate_deletions self backups =
  Some (List.filter
          (fun b => bool_decide (path b ∉ kept_paths self backups))
          (sorted_backups backups)).
Proof.
  destruct (keep_backups_Some self backups) as (keep & Hkeep & Hdom).
  destruct backups as [|b0 backups]; [done|].
  unfold calculate_deletions. rewrite Hkeep. simpl. f_equal.
  apply filter_ext. intros b. rewrite <-Hdom.
  unfold FileSet.contains.
  rewrite <-bool_decide_not. apply bool_decide_ext.
  by rewrite elem_of_dom.
Qed.

Lemma kept_not_deleted self (backups dels : list BackupFile) r :
  calculate_deletions self backups = Some dels ->
  path r ∈ kept_paths self backups ->
  (path r ∉ path <$> dels) /\ r ∉ dels.
Proof.
  intros Hd Hr.
  destruct (calculate_deletions_Some self backups) as (dels' & Hd' & Hspec).
  rewrite Hd in Hd'. injection Hd' as <-.
  assert (path r ∉ path <$> dels) as Hp.
  { intros (b & Hb & Hin)%list_elem_of_fmap. apply Hspec in Hin as [_ Hin].
    by rewrite <-Hb in Hin. }
  split; [done|]. intros Hin. apply Hp, list_elem_of_fmap. eauto.
Qed.

(** With pairwise distinct keys, an element that fewer than [n] elements
    exceed is among the first [n] of the descending sort. *)
Lemma top_in_slice {A} (key : A -> list Z) (l : list A) (r : A) (n : Z) :
  NoDup (key <$> l) -> r ∈ l ->
  Z.of_nat (length (filter (fun b => Py.key_ltb key r b = true) l)) < n ->
  r ∈ Py.slice_to n (Py.sorted_rev key l).
Proof.
  intros Hnd Hr Hn.
  destruct (slice_to_take n (Py.sorted_rev key l)) as (k & -> & Hk).
  rewrite Hk by lia. clear k Hk.
  pose proof (sorted_rev_perm key l) as Hperm.
  pose proof (sorted_rev_descending key l) as Hdesc.
  rewrite <-Hperm in Hnd, Hr, Hn.
  revert Hnd Hr Hn Hdesc. generalize (Py.sorted_rev key l). clear Hperm l.
  intros s Hnd Hr Hn Hdesc.
  rewrite <-(take_drop (Z.to_nat n) s) in Hnd, Hr, Hn, Hdesc.
  apply elem_of_app in Hr as [Hr|Hr]; [done|exfalso].
  assert (Z.to_nat n <= length s)%nat as Hlen.
  { destruct (decide (Z.to_nat n <= length s)%nat); [done|].
    rewrite drop_ge in Hr by lia. by apply elem_of_nil in Hr. }
  rewrite fmap_app in Hnd. apply NoDup_app in Hnd as (_ & Hdisj & _).
  rewrite filter_app, length_app in Hn.
  rewrite (filter_all _ (take (Z.to_nat n) s)) in Hn.
  - rewrite length_take in Hn. lia.
  - apply Forall_forall. intros a Ha.
    apply key_ltb_total.
    + intros Heq. apply (Hdisj (key a)).
      * apply list_elem_of_fmap. eauto.
      * apply list_elem_of_fmap. exists r. by rewrite Heq.
    + eapply descending_app; eauto.
Qed.

(** *** Daily tier *)

(** C1. For a policy with [daily = N] and an input list with pairwise
    distinct timestamps, a record that fewer than [N] input records are
    more recent than, that is, one of the [N] most recent records, is
    not in the deletion set returned by [calculate_deletions], whatever
    the weekly and monthly counts are. (The list need not even hold [N]
    records.) *)
Theorem daily_most_recent_never_deleted
    (self : RotationEngine.t) (backups : list BackupFile) (r : BackupFile) :
  NoDup (timestamp <$> backups) ->
  r ∈ backups ->
  Z.of_nat (newer_than r backups) < daily_count self ->
  exists dels, calculate_deletions self backups = Some dels /\
               (path r ∉ path <$> dels) /\ r ∉ dels.
Proof.
  intros Hnd Hr Hn.
  destruct (calculate_deletions_Some self backups) as (dels & Hd & _).
  exists dels. split; [done|].
  apply (kept_not_deleted self backups); [done|].
  unfold kept_paths. apply elem_of_union_l, elem_of_union_l.
  apply elem_of_list_to_set, list_elem_of_fmap. exists r. split; [done|].
  apply top_in_slice; [|done|done].
  change (by_timestamp <$> backups)
    with ((Datetime.as_tuple ∘ timestamp) <$> backups).
  rewrite list_fmap_compose. apply NoDup_fmap_2; [|done].
  intros [] []. unfold Datetime.as_tuple. simpl. congruence.
Qed.

Lemma daily_most_recent_never_deleted_witness :
  exists dels,
    calculate_deletions (RotationEngine.mk 2 0 0) Examples.five = Some dels /\
    (path Examples.jan09 ∉ path <$> dels) /\ Examples.jan09 ∉ dels.
Proof.
  apply daily_most_recent_never_deleted.
  - apply (bool_decide_unpack _). vm_compute. exact I.
  - apply (bool_decide_unpack _). vm_compute. exact I.
  - vm_compute. reflexivity.
Defined.

(** *** Weekly tier *)

(** C2. For every week key selected by the weekly tier, some record [r]
    of that week is retained, and: if any record of the week falls on a
    Monday, [r] is a Monday record that no Monday record of the week is
    more recent than (records of other weekdays may be more recent); if
    none does, no record of the week is more recent than [r]. *)
Theorem weekly_tier_prefers_monday
    (self : RotationEngine.t) (backups : list BackupFile) (wk : Z * Z) :
  wk ∈ sorted_weeks self backups ->
  exists dels r,
    calculate_deletions self backups = Some dels /\
    r ∈ backups /\ _get_calendar_week_key (timestamp r) = wk /\
    (path r ∉ path <$> dels) /\ (r ∉ dels) /\
    ((exists b, b ∈ backups /\ _get_calendar_week_key (timestamp b) = wk /\
                _is_monday (timestamp b) = true) ->
       _is_monday (timestamp r) = true /\
       forall b, b ∈ backups -> _get_calendar_week_key (timestamp b) = wk ->
                 _is_monday (timestamp b) = true -> ts_ltb r b = false) /\
    ((forall b, b ∈ backups -> _get_calendar_week_key (timestamp b) = wk ->
                _is_monday (timestamp b) = false) ->
       forall b, b ∈ backups -> _get_calendar_week_key (timestamp b) = wk ->
                 ts_ltb r b = false).
Proof.
  intros Hwk.
  destruct (calculate_deletions_Some self backups) as (dels & Hd & _).
  destruct (pick_is_Some _get_calendar_week_key _is_monday
              (sorted_backups backups) wk) as [r Hr].
  { by apply sorted_keys_elem_of with (weekly_count self). }
  pose proof (pick_spec _ _ _ _ _ Hr) as (Hin & Hk & Hmon & Hno).
  assert (path r ∈ kept_paths self backups) as Hkept.
  { unfold kept_paths. apply elem_of_union_l, elem_of_union_r.
    apply elem_of_list_to_set, list_elem_of_fmap. exists r. split; [done|].
    apply elem_of_picks. eauto. }
  destruct (kept_not_deleted self backups dels r Hd Hkept) as [Hp Hnin].
  exists dels, r. split_and!; try done.
  - by rewrite sorted_backups_elem_of in Hin.
  - intros (b & Hb & Hbk & Hbm).
    destruct Hmon as [Hrm Hmax].
    { exists b. by rewrite sorted_backups_elem_of. }
    split; [done|]. intros b' Hb'. apply Hmax.
    by rewrite sorted_backups_elem_of.
  - intros Hnone b Hb. apply Hno; [|by rewrite sorted_backups_elem_of].
    intros b' Hb'. apply Hnone. by rewrite sorted_backups_elem_of in Hb'.
Qed.

Lemma weekly_tier_prefers_monday_witness :
  exists dels r,
    calculate_deletions (RotationEngine.mk 0 1 0) Examples.five = Some dels /\
    r ∈ Examples.five /\ _get_calendar_week_key (timestamp r) = (2024, 2) /\
    (path r ∉ path <$> dels) /\ (r ∉ dels) /\
    ((exists b, b ∈ Examples.five /\
                _get_calendar_week_key (timestamp b) = (2024, 2) /\
                _is_monday (timestamp b) = true) ->
       _is_monday (timestamp r) = true /\
       forall b, b ∈ Examples.five ->
                 _get_calendar_week_key (timestamp b) = (2024, 2) ->
                 _is_monday (timestamp b) = true -> ts_ltb r b = false) /\
    ((forall b, b ∈ Examples.five ->
                _get_calendar_week_key (timestamp b) = (2024, 2) ->
                _is_monday (timestamp b) = false) ->
       forall b, b ∈ Examples.five ->
                 _get_calendar_week_key (timestamp b) = (2024, 2) ->
                 ts_ltb r b = false).
Proof.
  apply (weekly_tier_prefers_monday (RotationEngine.mk 0 1 0) Examples.five).
  apply (bool_decide_unpack _). vm_compute. exact I.
Defined.

(** With only the weekly tier active, the Monday backup of the newest week
    survives while the two more recent backups of that week are deleted. *)
Example monday_kept_newer_deleted :
  calculate_deletions (RotationEngine.mk 0 1 0) Examples.five
  = Some [Examples.jan10; Examples.jan09; Examples.jan03; Examples.dec15].
Proof. vm_compute. reflexivity. Qed.

(** *** Size of the retained set *)

Lemma size_list_to_set_le (l : list string) :
  (size (list_to_set l : gset string) <= length l)%nat.
Proof.
  induction l as [|x l IH].
  { rewrite list_to_set_nil, size_empty. simpl. lia. }
  rewrite list_to_set_cons, size_union_alt, size_singleton. simpl.
  assert (size ((list_to_set l : gset string) ∖ {[x]})
          <= size (list_to_set l : gset string))%nat
    by (apply subseteq_size; set_solver).
  lia.
Qed.

Lemma size_union_le (X Y : gset string) :
  (size (X ∪ Y) <= size X + size Y)%nat.
Proof.
  rewrite size_union_alt.
  assert (size (Y ∖ X) <= size Y)%nat by (apply subseteq_size; set_solver).
  lia.
Qed.

(** A union as large as the sum of its parts has disjoint parts. *)
Lemma size_union_eq_disjoint (X Y : gset string) :
  size (X ∪ Y) = (size X + size Y)%nat -> X ## Y.
Proof.
  rewrite size_union_alt. intros Hsz.
  assert (Y ∖ X ≡ Y) as Heq.
  { apply set_subseteq_size_equiv; [set_solver|lia]. }
  set_solver.
Qed.

Lemma size_union3_eq_disjoint (X Y Z : gset string) :
  size (X ∪ Y ∪ Z) = (size X + size Y + size Z)%nat ->
  X ## Y /\ X ## Z /\ Y ## Z.
Proof.
  intros Hsz.
  pose proof (size_union_le (X ∪ Y) Z).
  pose proof (size_union_le X Y).
  assert (X ## Y) as HXY by (apply size_union_eq_disjoint; lia).
  assert (X ∪ Y ## Z) as HXYZ by (apply size_union_eq_disjoint; lia).
  set_solver.
Qed.

Lemma retained_subseteq self (backups dels : list BackupFile) :
  calculate_deletions self backups = Some dels ->
  retained backups dels ⊆ kept_paths self backups.
Proof.
  intros Hd p. unfold retained.
  rewrite elem_of_difference, !elem_of_list_to_set.
  intros [(b & -> & Hb)%list_elem_of_fmap Hnd].
  destruct (decide (path b ∈ kept_paths self backups)) as [|Hnk]; [done|].
  destruct (calculate_deletions_Some self backups) as (dels' & Hd' & Hspec).
  rewrite Hd in Hd'. injection Hd' as <-.
  exfalso. apply Hnd, list_elem_of_fmap. exists b. split; [done|].
  by apply Hspec.
Qed.

Lemma daily_backups_length self (backups : list BackupFile) :
  0 <= daily_count self ->
  Z.of_nat (length (daily_backups self backups)) <= daily_count self.
Proof. apply slice_to_length. Qed.

Lemma weekly_backups_length self (backups : list BackupFile) :
  0 <= weekly_count self ->
  Z.of_nat (length (weekly_backups self backups)) <= weekly_count self.
Proof.
  intros H0. unfold weekly_backups, sorted_weeks, weekly_buckets.
  rewrite picks_length. by apply sorted_keys_length.
Qed.

Lemma monthly_backups_length self (backups : list BackupFile) :
  0 <= monthly_count self ->
  Z.of_nat (length (monthly_backups self backups)) <= monthly_count self.
Proof.
  intros H0. unfold monthly_backups, sorted_months, monthly_buckets.
  rewrite picks_length. by apply sorted_keys_length.
Qed.

(** C3. For a policy with non-negative counts, the retained set (input
    records minus deletion set, by path) has at most
    [daily + weekly + monthly] elements, and when it has exactly that many
    no record is selected by two tiers. *)
Theorem retained_size_bound
    (self : RotationEngine.t) (backups : list BackupFile) :
  0 <= daily_count self -> 0 <= weekly_count self ->
  0 <= monthly_count self ->
  exists dels,
    calculate_deletions self backups = Some dels /\
    Z.of_nat (size (retained backups dels))
      <= daily_count self + weekly_count self + monthly_count self /\
    (Z.of_nat (size (retained backups dels))
       = daily_count self + weekly_count self + monthly_count self ->
     forall r : BackupFile,
       ~ (path r ∈ path <$> daily_backups self backups /\
          path r ∈ path <$> weekly_backups self backups) /\
       ~ (path r ∈ path <$> daily_backups self backups /\
          path r ∈ path <$> monthly_backups self backups) /\
       ~ (path r ∈ path <$> weekly_backups self backups /\
          path r ∈ path <$> monthly_backups self backups)).
Proof.
  intros Hd0 Hw0 Hm0.
  destruct (calculate_deletions_Some self backups) as (dels & Hd & _).
  exists dels. split; [done|].
  pose proof (subseteq_size _ _ (retained_subseteq _ _ _ Hd)) as Hsub.
  unfold kept_paths in Hsub.
  set (D := list_to_set (path <$> daily_backups self backups) : gset string)
    in *.
  set (W := list_to_set (path <$> weekly_backups self backups) : gset string)
    in *.
  set (M := list_to_set (path <$> monthly_backups self backups) : gset string)
    in *.
  pose proof (size_union_le (D ∪ W) M) as H1.
  pose proof (size_union_le D W) as H2.
  assert (Z.of_nat (size D) <= daily_count self) as HD.
  { pose proof (size_list_to_set_le (path <$> daily_backups self backups)) as H.
    rewrite length_fmap in H.
    pose proof (daily_backups_length self backups Hd0). unfold D. lia. }
  assert (Z.of_nat (size W) <= weekly_count self) as HW.
  { pose proof (size_list_to_set_le (path <$> weekly_backups self backups)) as H.
    rewrite length_fmap in H.
    pose proof (weekly_backups_length self backups Hw0). unfold W. lia. }
  assert (Z.of_nat (size M) <= monthly_count self) as HM.
  { pose proof (size_list_to_set_le (path <$> monthly_backups self backups)) as H.
    rewrite length_fmap in H.
    pose proof (monthly_backups_length self backups Hm0). unfold M. lia. }
  split; [lia|]. intros Heq r.
  destruct (size_union3_eq_disjoint D W M) as (HDW & HDM & HWM); [lia|].
  unfold D, W, M in *. set_solver.
Qed.

Lemma retained_size_bound_witness :
  exists dels,
    calculate_deletions (RotationEngine.mk 2 1 1) Examples.five = Some dels /\
    Z.of_nat (size (retained Examples.five dels)) <= 2 + 1 + 1 /\
    (Z.of_nat (size (retained Examples.five dels)) = 2 + 1 + 1 ->
     forall r : BackupFile,
       ~ (path r ∈ path <$> daily_backups (RotationEngine.mk 2 1 1) Examples.five /\
          path r ∈ path <$> weekly_backups (RotationEngine.mk 2 1 1) Examples.five) /\
       ~ (path r ∈ path <$> daily_backups (RotationEngine.mk 2 1 1) Examples.five /\
          path r ∈ path <$> monthly_backups (RotationEngine.mk 2 1 1) Examples.five) /\
       ~ (path r ∈ path <$> weekly_backups (RotationEngine.mk 2 1 1) Examples.five /\
          path r ∈ path <$> monthly_backups (RotationEngine.mk 2 1 1) Examples.five)).
Proof.
  apply (retained_size_bound (RotationEngine.mk 2 1 1) Examples.five);
    simpl; lia.
Defined.

End Engine.

(** ** The engine sees only paths, relative order and calendar fields *)

Section Retiming.
Import RotationEngine.

Section Generic.
Context {A : Type} (key : A -> list Z) (F : A -> A).

#[local] Abbreviation ltb := (Py.key_ltb key).

Lemma insert_desc_fmap x (l : list A) :
  (forall y, y ∈ l -> ltb (F x) (F y) = ltb x y) ->
  Py.insert_desc key (F x) (F <$> l) = F <$> Py.insert_desc key x l.
Proof.
  induction l as [|y l IH]; intros H; simpl; [done|].
  rewrite (H y) by left. destruct (ltb x y); [|done].
  simpl. f_equal. apply IH. intros z Hz. apply H. by right.
Qed.

Lemma sorted_rev_fmap (l : list A) :
  (forall a b, a ∈ l -> b ∈ l -> ltb (F a) (F b) = ltb a b) ->
  Py.sorted_rev key (F <$> l) = F <$> Py.sorted_rev key l.
Proof.
  induction l as [|x l IH]; intros H; [done|].
  rewrite fmap_cons. cbn [Py.sorted_rev].
  rewrite IH by (intros a b Ha Hb; apply H; by right).
  apply insert_desc_fmap. intros y Hy. rewrite sorted_rev_elem_of in Hy.
  apply H; [left|by right].
Qed.

Lemma max_from_fmap best (l : list A) :
  (forall a b, a ∈ best :: l -> b ∈ best :: l ->
               ltb (F a) (F b) = ltb a b) ->
  Py.max_from key (F best) (F <$> l) = F (Py.max_from key best l).
Proof.
  revert best. induction l as [|x l IH]; intros best H; simpl; [done|].
  rewrite (H best x) by (repeat constructor).
  destruct (ltb best x).
  - apply IH. intros a b Ha Hb. apply H; by right.
  - apply IH. intros a b Ha Hb. apply H.
    + apply elem_of_cons in Ha as [->|Ha]; [left|by do 2 right].
    + apply elem_of_cons in Hb as [->|Hb]; [left|by do 2 right].
Qed.

Lemma max_by_fmap (l : list A) :
  (forall a b, a ∈ l -> b ∈ l -> ltb (F a) (F b) = ltb a b) ->
  Py.max_by key (F <$> l) = F <$> Py.max_by key l.
Proof.
  destruct l as [|x l]; intros H; simpl; [done|].
  f_equal. by apply max_from_fmap.
Qed.

Lemma slice_to_fmap (n : Z) (l : list A) :
  Py.slice_to n (F <$> l) = F <$> Py.slice_to n l.
Proof.
  unfold Py.slice_to. rewrite length_fmap.
  destruct (0 <=? n); by rewrite fmap_take.
Qed.

Lemma List_filter_fmap (f : A -> bool) (l : list A) :
  (forall b, b ∈ l -> f (F b) = f b) ->
  List.filter f (F <$> l) = F <$> List.filter f l.
Proof.
  induction l as [|x l IH]; intros H; [done|].
  rewrite fmap_cons. cbn [List.filter].
  rewrite (H x) by left. rewrite IH by (intros b Hb; apply H; by right).
  by destruct (f x).
Qed.
End Generic.

Context (F : BackupFile -> BackupFile) (backups : list BackupFile).

#[local] Abbreviation ts_ltb := (Py.key_ltb by_timestamp).

Hypothesis same_path : forall b, b ∈ backups -> path (F b) = path b.
Hypothesis same_order :
  forall a b, a ∈ backups -> b ∈ backups -> ts_ltb (F a) (F b) = ts_ltb a b.

Lemma sorted_backups_fmap :
  sorted_backups (F <$> backups) = F <$> sorted_backups backups.
Proof. by apply sorted_rev_fmap. Qed.

Lemma daily_backups_fmap self :
  daily_backups self (F <$> backups) = F <$> daily_backups self backups.
Proof.
  unfold daily_backups. by rewrite sorted_backups_fmap, slice_to_fmap.
Qed.

Section Tier.
Context (key : datetime -> Z * Z) (prefer : datetime -> bool).
Hypothesis same_key :
  forall b, b ∈ backups -> key (timestamp (F b)) = key (timestamp b).
Hypothesis same_prefer :
  forall b, b ∈ backups -> prefer (timestamp (F b)) = prefer (timestamp b).

Lemma buckets_fmap :
  buckets key (sorted_backups (F <$> backups))
  = (fmap (M:=list) F) <$> buckets key (sorted_backups backups).
Proof.
  rewrite sorted_backups_fmap. apply map_eq. intros k.
  rewrite lookup_fmap, !buckets_lookup.
  rewrite List_filter_fmap.
  - by destruct (List.filter _ (sorted_backups backups)).
  - intros b Hb. rewrite sorted_backups_elem_of in Hb.
    by rewrite same_key.
Qed.

Lemma pick_fmap k :
  pick prefer (buckets key (sorted_backups (F <$> backups))) k
  = F <$> pick prefer (buckets key (sorted_backups backups)) k.
Proof.
  unfold pick. rewrite buckets_fmap, lookup_fmap.
  assert (default [] (fmap (M:=list) F <$> buckets key (sorted_backups backups) !! k)
          = F <$> default [] (buckets key (sorted_backups backups) !! k))
    as -> by by destruct (buckets key (sorted_backups backups) !! k).
  assert (forall b,
            b ∈ default [] (buckets key (sorted_backups backups) !! k) ->
            b ∈ backups) as Hsub.
  { intros b Hb. rewrite elem_of_bucket in Hb. destruct Hb as [Hb _].
    by rewrite sorted_backups_elem_of in Hb. }
  rewrite List_filter_fmap by (intros b Hb; apply same_prefer; auto).
  remember (List.filter (fun b => prefer (timestamp b))
              (default [] (buckets key (sorted_backups backups) !! k)))
    as fl eqn:E.
  destruct fl as [|p ps].
  - change (Py.max_by by_timestamp
              (F <$> default [] (buckets key (sorted_backups backups) !! k))
            = F <$> Py.max_by by_timestamp
                      (default [] (buckets key (sorted_backups backups) !! k))).
    apply max_by_fmap. intros a b Ha Hb. apply same_order; auto.
  - change (Py.max_by by_timestamp (F <$> p :: ps)
            = F <$> Py.max_by by_timestamp (p :: ps)).
    apply max_by_fmap. intros a b Ha Hb. rewrite E in Ha, Hb.
    rewrite elem_of_List_filter in Ha, Hb.
    apply same_order; apply Hsub; tauto.
Qed.

Lemma omap_pick_fmap (ks : list (Z * Z)) :
  omap (pick prefer (buckets key (sorted_backups (F <$> backups)))) ks
  = F <$> omap (pick prefer (buckets key (sorted_backups backups))) ks.
Proof.
  induction ks as [|k ks IH]; [done|].
  cbn [omap list_omap]. rewrite pick_fmap.
  destruct (pick prefer (buckets key (sorted_backups backups)) k); simpl.
  - f_equal. exact IH.
  - exact IH.
Qed.

Lemma picks_fmap (count : Z) :
  omap (pick prefer (buckets key (sorted_backups (F <$> backups))))
    (sorted_keys count (buckets key (sorted_backups (F <$> backups))))
  = F <$> omap (pick prefer (buckets key (sorted_backups backups)))
            (sorted_keys count (buckets key (sorted_backups backups))).
Proof.
  rewrite omap_pick_fmap. do 2 f_equal.
  unfold sorted_keys. by rewrite buckets_fmap, dom_fmap_L.
Qed.
End Tier.

Lemma contains_fmap b (s : gmap string BackupFile) :
  path (F b) = path b ->
  FileSet.contains (F b) (F <$> s) = FileSet.contains b s.
Proof.
  intros Hp. unfold FileSet.contains. rewrite Hp, lookup_fmap.
  apply bool_decide_ext. by rewrite fmap_is_Some.
Qed.

Lemma kept_paths_fmap self :
  (forall b, b ∈ backups ->
     _get_calendar_week_key (timestamp (F b))
       = _get_calendar_week_key (timestamp b) /\
     _get_calendar_month_key (timestamp (F b))
       = _get_calendar_month_key (timestamp b) /\
     _is_monday (timestamp (F b)) = _is_monday (timestamp b) /\
     _is_first_of_month (timestamp (F b))
       = _is_first_of_month (timestamp b)) ->
  kept_paths self (F <$> backups) = kept_paths self backups.
Proof.
  intros Hcal. unfold kept_paths, weekly_backups, monthly_backups,
    sorted_weeks, sorted_months, weekly_buckets, monthly_buckets.
  rewrite daily_backups_fmap.
  rewrite !picks_fmap by (intros b Hb; by apply Hcal).
  assert (forall l : list BackupFile,
            (forall b, b ∈ l -> b ∈ backups) ->
            path <$> (F <$> l) = path <$> l) as Hpaths.
  { intros l Hl. rewrite <-list_fmap_compose. apply list_fmap_ext.
    intros i b Hb. simpl. apply same_path, Hl.
    by eapply list_elem_of_lookup_2. }
  rewrite !Hpaths; [done| | |].
  - apply monthly_backups_elem_of.
  - apply weekly_backups_elem_of.
  - apply daily_backups_elem_of.
Qed.

End Retiming.

Section PureFunction.
Import RotationEngine.

#[local] Abbreviation ts_ltb := (Py.key_ltb by_timestamp).

(** C4. [calculate_deletions] is a function of the record list and the
    policy counts alone (it takes no clock and no state, and always
    returns), and of the records it uses only the paths, the relative
    order of the timestamps and their calendar fields: replacing every
    record by one with the same path whose timestamp compares the same way
    with the others and has the same ISO week, month, Monday and
    first-of-month attributes replaces the deletion list by the
    corresponding records. In particular two runs on the same list agree. *)
Theorem calculate_deletions_pure
    (self : RotationEngine.t) (backups : list BackupFile)
    (F : BackupFile -> BackupFile) :
  (forall b, b ∈ backups -> path (F b) = path b) ->
  (forall a b, a ∈ backups -> b ∈ backups ->
               ts_ltb (F a) (F b) = ts_ltb a b) ->
  (forall b, b ∈ backups ->
     _get_calendar_week_key (timestamp (F b))
       = _get_calendar_week_key (timestamp b) /\
     _get_calendar_month_key (timestamp (F b))
       = _get_calendar_month_key (timestamp b) /\
     _is_monday (timestamp (F b)) = _is_monday (timestamp b) /\
     _is_first_of_month (timestamp (F b))
       = _is_first_of_month (timestamp b)) ->
  exists dels,
    calculate_deletions self backups = Some dels /\
    calculate_deletions self (F <$> backups) = Some (F <$> dels) /\
    forall dels', calculate_deletions self backups = Some dels' ->
                  dels' = dels.
Proof.
  intros Hpath Hord Hcal. eexists. split; [apply calculate_deletions_eq|].
  split; [|intros dels'; rewrite calculate_deletions_eq; congruence].
  rewrite calculate_deletions_eq. f_equal.
  rewrite (kept_paths_fmap F backups Hpath Hord self Hcal).
  rewrite (sorted_backups_fmap F backups Hord).
  apply List_filter_fmap. intros b Hb. rewrite sorted_backups_elem_of in Hb.
  by rewrite Hpath.
Qed.

Lemma calculate_deletions_pure_witness :
  exists dels,
    calculate_deletions (RotationEngine.mk 2 1 1) Examples.five = Some dels /\
    calculate_deletions (RotationEngine.mk 2 1 1)
      (Examples.rescan <$> Examples.five) = Some (Examples.rescan <$> dels) /\
    forall dels',
      calculate_deletions (RotationEngine.mk 2 1 1) Examples.five = Some dels' ->
      dels' = dels.
Proof.
  apply (calculate_deletions_pure (RotationEngine.mk 2 1 1) Examples.five
Examples.rescan).
- apply Forall_forall, (bool_decide_unpack _). vm_compute. exact I.
- intros a b Ha. revert b. apply Forall_forall. revert a Ha.
apply Forall_forall, (bool_decide_unpack _). vm_compute. exact I.
- apply Forall_forall, (bool_decide_unpack _). vm_compute. exact I.
Defined.

End PureFunction.

(** ** The disk monitor *)

Section Disk.
Import DiskMonitor.

Lemma Qltb_spec (a b : Q) : Qltb a b = true <-> (a < b)%Q.
Proof.
  unfold Qltb. rewrite Qlt_alt. by destruct (a ?= b)%Q.
Qed.

(** A reading that succeeds is the reading of a usage tuple with a non-zero
    total, and its percentage is the rounded product computed from it. *)
Lemma get_disk_usage_inr env x :
  get_disk_usage env = inr x ->
  exists total used free,
    env = Usage total used free /\ total <> 0 /\
    percent_free total free = inr x.1.1.1.
Proof.
  destruct env as [| |total used free]; simpl; [done|done|].
  destruct (Float64.int_truediv total GiB) as [e1|tg]; [done|].
  destruct (Float64.int_truediv used GiB) as [e2|ug]; [done|].
  destruct (Float64.int_truediv free GiB) as [e3|fg]; [done|].
  destruct (percent_free total free) as [e4|fp] eqn:E; [done|].
  intros [= <-]. exists total, used, free. split_and!; [done| |done].
  intros ->. unfold percent_free, Float64.int_truediv in E. simpl in E. done.
Qed.

Lemma should_alert_true self env :
  (should_alert self env).1.1.1 = true <->
  exists x, get_disk_usage env = inr x /\
            Float64.ltb x.1.1.1 (threshold_percent self) = true.
Proof.
  unfold should_alert.
  destruct (get_disk_usage env) as [e|[[[fp fg] ug] tg]]; simpl.
  - split; [done|]. by intros (x & ? & _).
  - split; [eauto|]. by intros (x & [= <-] & H).
Qed.

Lemma is_resolved_true self env :
  is_resolved self env = true <->
  exists x, get_disk_usage env = inr x /\
            Float64.ltb
              (Float64.add (threshold_percent self) (margin_percent self))
              x.1.1.1 = true.
Proof.
  unfold is_resolved, resolution_threshold_percent.
  destruct (get_disk_usage env) as [e|[[[fp fg] ug] tg]]; simpl.
  - split; [done|]. by intros (x & ? & _).
  - split; [eauto|]. by intros (x & [= <-] & H).
Qed.

(** C5 as stated, read on the true percentage of the sample, fails on the
    code: with [T = 29], a disk with 29 of 100 units free is at exactly 29
    percent, not below it, and [should_alert] fires, since the computed
    [(29 / 100) * 100] is the float just under 29. *)
Lemma alert_at_exactly_the_trigger :
  ~ (forall (T M total used free : Z),
       0 < total ->
       ((should_alert (DiskMonitor.mk (Float64.of_int T) (Float64.of_int M))
           (Usage total used free)).1.1.1 = true
        <-> free * 100 < T * total)).
Proof.
  intros H. destruct (H 29 0 100 71 29 ltac:(lia)) as [Hlt _].
  assert (29 * 100 < 29 * 100) by (apply Hlt; vm_compute; reflexivity).
  lia.
Qed.

(** C5, as the code has it. [should_alert] fires exactly on an observed
    sample whose computed percentage, the binary64 value of
    [(free / total) * 100], is below the trigger [T] in the comparison of
    floats; [is_resolved] holds exactly on an observed sample whose computed
    percentage is above the binary64 sum [T + M]; an observed sample is a
    usage tuple with a non-zero total; with [T = 10] and [M = 5] the samples
    9, 11, 14, 16 of 100 alert at 9 only and resolve at 16 only; and
    [check_disk_space] leaves the alerting state only when [is_resolved]
    saw a computed percentage above [T + M]. *)
Theorem hysteresis_band :
  (forall self env,
     (should_alert self env).1.1.1 = true <->
     exists x, get_disk_usage env = inr x /\
               Float64.ltb x.1.1.1 (threshold_percent self) = true) /\
  (forall self env,
     is_resolved self env = true <->
     exists x, get_disk_usage env = inr x /\
               Float64.ltb
                 (Float64.add (threshold_percent self) (margin_percent self))
                 x.1.1.1 = true) /\
  (forall env x,
     get_disk_usage env = inr x ->
     exists total used free,
       env = Usage total used free /\ total <> 0 /\
       percent_free total free = inr x.1.1.1) /\
  (let self := DiskMonitor.mk (Float64.of_int 10) (Float64.of_int 5) in
   let sample free := Usage 100 (100 - free) free in
   (should_alert self (sample 9)).1.1.1 = true /\
   (should_alert self (sample 11)).1.1.1 = false /\
   (should_alert self (sample 14)).1.1.1 = false /\
   (should_alert self (sample 16)).1.1.1 = false /\
   is_resolved self (sample 9) = false /\
   is_resolved self (sample 11) = false /\
   is_resolved self (sample 14) = false /\
   is_resolved self (sample 16) = true) /\
  (forall self today env1 env2 sent,
     check_disk_space self today env1 env2 (Some sent) = None ->
     (should_alert self env1).1.1.1 = false /\
     exists x, get_disk_usage env2 = inr x /\
               Float64.ltb
                 (Float64.add (threshold_percent self) (margin_percent self))
                 x.1.1.1 = true).
Proof.
  split; [exact should_alert_true|]. split; [exact is_resolved_true|].
  split; [exact get_disk_usage_inr|].
  split; [by vm_compute|].
  intros self today env1 env2 sent. unfold check_disk_space.
  destruct ((should_alert self env1).1.1.1) eqn:Ha.
  - by case_bool_decide.
  - destruct (is_resolved self env2) eqn:Hr; [|done].
    intros _. split; [done|]. by apply is_resolved_true.
Qed.

(** C6. When the disk usage cannot be read (the path is missing, the
    usage query raises, or the reported total is zero so that the
    percentage cannot be computed), [should_alert] returns with the alert
    flag false. *)
Theorem unreadable_disk_never_alerts self env e :
  get_disk_usage env = inl e ->
  should_alert self env = (false, Float64.zero, Float64.zero, Float64.zero).
Proof. unfold should_alert. by intros ->. Qed.

Lemma unreadable_disk_never_alerts_witness :
  should_alert (DiskMonitor.mk (Float64.of_int 10) (Float64.of_int 5))
    PathMissing
  = (false, Float64.zero, Float64.zero, Float64.zero).
Proof.
  apply (unreadable_disk_never_alerts _ PathMissing FileNotFoundError).
  reflexivity.
Defined.

(** C10 as stated, read on the true percentage of the sample, fails on the
    code: with [T = 5] and [M = 2], a disk with 7 of 100 units free is at
    exactly [T + M] percent, not above it, and [is_resolved] answers true,
    since the computed [(7 / 100) * 100] is the float just over 7. *)
Lemma resolved_at_exactly_the_band :
  ~ (forall (T M total used free : Z),
       0 < total ->
       is_resolved (DiskMonitor.mk (Float64.of_int T) (Float64.of_int M))
         (Usage total used free) = true ->
       (T + M) * total < free * 100).
Proof.
  intros H.
  assert ((5 + 2) * 100 < 7 * 100)
    by (apply (H 5 2 100 93 7); [lia|vm_compute; reflexivity]).
  lia.
Qed.

(** C10, as the code has it. When the disk usage cannot be read,
    [is_resolved] returns false; it returns true only on an observed
    sample, a usage tuple with a non-zero total, whose computed percentage
    (the binary64 value of [(free / total) * 100]) is above the binary64
    sum [T + M]. *)
Theorem unreadable_disk_never_resolves self env :
  ((exists e, get_disk_usage env = inl e) -> is_resolved self env = false) /\
  (is_resolved self env = true ->
   exists total used free x,
     env = Usage total used free /\ total <> 0 /\
     get_disk_usage env = inr x /\
     percent_free total free = inr x.1.1.1 /\
     Float64.ltb (Float64.add (threshold_percent self) (margin_percent self))
       x.1.1.1 = true).
Proof.
  split.
  - intros [e He]. unfold is_resolved. by rewrite He.
  - intros (x & Hx & Hlt)%is_resolved_true.
    destruct (get_disk_usage_inr env x Hx) as (t & u & f & -> & Ht & Hp).
    exists t, u, f, x. done.
Qed.

Lemma unreadable_disk_never_resolves_witness :
  is_resolved (DiskMonitor.mk (Float64.of_int 10) (Float64.of_int 5))
    UsageFails = false
  /\
  exists total used free x,
    Usage 100 84 16 = Usage total used free /\ total <> 0 /\
    get_disk_usage (Usage 100 84 16) = inr x /\
    percent_free total free = inr x.1.1.1 /\
    Float64.ltb
      (Float64.add
         (threshold_percent
            (DiskMonitor.mk (Float64.of_int 10) (Float64.of_int 5)))
         (margin_percent
            (DiskMonitor.mk (Float64.of_int 10) (Float64.of_int 5))))
      x.1.1.1 = true.
Proof.
  split.
  - apply (unreadable_disk_never_resolves
             (DiskMonitor.mk (Float64.of_int 10) (Float64.of_int 5))
             UsageFails).
    exists OSError. reflexivity.
  - apply (unreadable_disk_never_resolves
             (DiskMonitor.mk (Float64.of_int 10) (Float64.of_int 5))
             (Usage 100 84 16)).
    vm_compute. reflexivity.
Defined.

End Disk.

(** ** Timestamp extraction *)

Section Extraction.
Import BackupScanner Strptime.
Local Open Scope string_scope.

(** C7 as stated fails on the route it names: the configured formats do not
    yield 2024-01-15T03:00:00 for [backup_20240115_030000.tar.gz]; the loop
    over the formats ends without a timestamp. *)
Lemma configured_formats_do_not_parse_prefixed_name :
  parse_with_formats Examples.scanner "backup_20240115_030000.tar.gz"
  <> Some (mk_datetime 2024 1 15 3 0 0 0).
Proof. vm_compute. discriminate. Qed.

(** C7, as the code has it. With the formats [%Y%m%d_%H%M%S] and
    [%Y-%m-%d], no configured format matches
    [backup_20240115_030000.tar.gz] (splitting at [_] cuts the timestamp in
    two, and the only dot-part that holds it whole also holds the prefix),
    so the extractor returns the answer of the fuzzy fallback for the whole
    name: 2024-01-15T03:00:00 when the fallback reads that out of it, as
    dateutil does; and for [nightly.bak], which the fallback does not
    parse, it returns "no match". *)
Theorem prefixed_timestamp_comes_from_fallback
    (fuzzy_parse : string -> option datetime) :
  fuzzy_parse "backup_20240115_030000.tar.gz"
    = Some (mk_datetime 2024 1 15 3 0 0 0) ->
  fuzzy_parse "nightly.bak" = None ->
  parse_with_formats Examples.scanner "backup_20240115_030000.tar.gz" = None /\
  _parse_datetime_from_filename fuzzy_parse Examples.scanner
    "backup_20240115_030000.tar.gz"
  = Some (mk_datetime 2024 1 15 3 0 0 0) /\
  _parse_datetime_from_filename fuzzy_parse Examples.scanner "nightly.bak"
  = None.
Proof.
  intros Hbackup Hnightly.
  assert (parse_with_formats Examples.scanner "backup_20240115_030000.tar.gz"
          = None) as Hmiss by (vm_compute; reflexivity).
  assert (parse_with_formats Examples.scanner "nightly.bak" = None) as Hnight
    by (vm_compute; reflexivity).
  unfold _parse_datetime_from_filename. rewrite Hmiss, Hnight. done.
Qed.

Lemma prefixed_timestamp_comes_from_fallback_witness :
  parse_with_formats Examples.scanner "backup_20240115_030000.tar.gz" = None /\
  _parse_datetime_from_filename Examples.dateutil_answers Examples.scanner
    "backup_20240115_030000.tar.gz"
  = Some (mk_datetime 2024 1 15 3 0 0 0) /\
  _parse_datetime_from_filename Examples.dateutil_answers Examples.scanner
    "nightly.bak"
  = None.
Proof.
  apply (prefixed_timestamp_comes_from_fallback Examples.dateutil_answers).
  - reflexivity.
  - reflexivity.
Defined.

(** The timestamp alone, or with only an extension after it, is parsed by
    the first configured format. *)
Example bare_timestamp_is_parsed :
  strptime "20240115_030000" "%Y%m%d_%H%M%S"
    = Some (mk_datetime 2024 1 15 3 0 0 0) /\
  parse_with_formats Examples.scanner "20240115_030000.tar.gz"
    = Some (mk_datetime 2024 1 15 3 0 0 0).
Proof. split; vm_compute; reflexivity. Qed.

End Extraction.

(** ** The scanner *)

Section Scanner.
Import BackupScanner.
Local Open Scope string_scope.

Context (fuzzy_parse : string -> option datetime).
Context (pattern_match : string -> bool).
Context (self : BackupScanner.t) (project_id : string) (min_file_size_mb : Q).

#[local] Abbreviation step :=
  (scan_item fuzzy_parse pattern_match self project_id min_file_size_mb).
#[local] Abbreviation undersized_of :=
  (undersized_report fuzzy_parse pattern_match self project_id
     min_file_size_mb).
#[local] Abbreviation valid_of :=
  (valid_report fuzzy_parse pattern_match self project_id min_file_size_mb).

Lemma scan_item_acc (v : list BackupFile) (u : list (string * Q)) item :
  step (v, u) item
  = ((v ++ option_list (valid_of item))%list,
     (u ++ option_list (undersized_of item))%list).
Proof.
  unfold undersized_report, valid_report, scan_item.
  destruct (is_file item); simpl; [|by rewrite !app_nil_r].
  destruct (pattern_match (name item)); simpl; [|by rewrite !app_nil_r].
  destruct (st_size item) as [sz|]; simpl; [|by rewrite !app_nil_r].
  destruct (DiskMonitor.Qltb _ _); simpl; [by rewrite !app_nil_r|].
  destruct (_parse_datetime_from_filename _ _ _); simpl;
    by rewrite !app_nil_r.
Qed.

Lemma scan_foldl (entries : list dir_entry)
    (v : list BackupFile) (u : list (string * Q)) :
  foldl step (v, u) entries
  = ((v ++ omap valid_of entries)%list,
     (u ++ omap undersized_of entries)%list).
Proof.
  revert v u. induction entries as [|e entries IH]; intros v u.
  - simpl. by rewrite !app_nil_r.
  - cbn [foldl]. rewrite scan_item_acc, IH. cbn [omap list_omap].
    rewrite <-!app_assoc.
    by destruct (valid_of e), (undersized_of e).
Qed.

Lemma undersized_report_Some item p :
  undersized_of item = Some p ->
  p.1 = name item.
Proof.
  unfold undersized_report, scan_item.
  destruct (is_file item); simpl; [|done].
  destruct (pattern_match (name item)); simpl; [|done].
  destruct (st_size item) as [sz|]; simpl; [|done].
  destruct (DiskMonitor.Qltb _ _); simpl; [by intros [= <-]|].
  by destruct (_parse_datetime_from_filename _ _ _).
Qed.

Lemma valid_report_Some item b :
  valid_of item = Some b ->
  filename b = name item /\
  exists sz, st_size item = Some sz /\
    DiskMonitor.Qltb (inject_Z sz)
      (min_size_bytes min_file_size_mb) = false.
Proof.
  unfold valid_report, scan_item.
  destruct (is_file item); simpl; [|done].
  destruct (pattern_match (name item)); simpl; [|done].
  destruct (st_size item) as [sz|]; simpl; [|done].
  destruct (DiskMonitor.Qltb _ _) eqn:E; simpl; [done|].
  destruct (_parse_datetime_from_filename _ _ _); simpl; [|done].
  intros [= <-]. simpl. eauto.
Qed.

(** Reports about a name, from a listing in which names are unique. *)
Lemma undersized_once (entries : list dir_entry) e q :
  NoDup (name <$> entries) -> e ∈ entries ->
  undersized_of e = Some (name e, q) ->
  filter (fun p : string * Q => p.1 = name e) (omap undersized_of entries)
  = [(name e, q)].
Proof.
  intros Hnd He Hrep.
  assert (forall l : list dir_entry,
            name e ∉ name <$> l ->
            filter (fun p : string * Q => p.1 = name e) (omap undersized_of l)
            = []) as Hnone.
  { induction l as [|x l IH]; intros Hnin; [done|].
    rewrite fmap_cons, not_elem_of_cons in Hnin. destruct Hnin as [Hx Hl].
    cbn [omap list_omap].
    destruct (undersized_of x) as [p|] eqn:Ex; [|by apply IH].
    apply undersized_report_Some in Ex. simpl.
    rewrite filter_cons_False by congruence. by apply IH. }
  induction entries as [|x entries IH]; [by apply elem_of_nil in He|].
  rewrite fmap_cons in Hnd. apply NoDup_cons in Hnd as [Hx Hnd].
  cbn [omap list_omap].
  apply elem_of_cons in He as [<-|He].
  - rewrite Hrep. simpl. rewrite filter_cons_True by done.
    by rewrite Hnone.
  - assert (name x <> name e) as Hne.
    { intros Heq. apply Hx. rewrite Heq. apply list_elem_of_fmap. eauto. }
    destruct (undersized_of x) as [p|] eqn:Ex; [|by apply IH].
    apply undersized_report_Some in Ex. simpl.
    rewrite filter_cons_False by congruence. by apply IH.
Qed.

(** C8. In a scanned project directory (its entries having distinct
    names), a regular file whose name matches the pattern and whose size
    is strictly below the minimum is in no record of the valid list, and
    the undersized list holds exactly one pair for its name: the name with
    the size in megabytes. *)
Theorem undersized_file_reported_once
    (fs : string -> node) (entries : list dir_entry) (e : dir_entry) (sz : Z) :
  fs (project_path self project_id) = Directory entries ->
  NoDup (name <$> entries) ->
  e ∈ entries ->
  is_file e = true ->
  pattern_match (name e) = true ->
  st_size e = Some sz ->
  (inject_Z sz < min_size_bytes min_file_size_mb)%Q ->
  let result := scan_project_backups fuzzy_parse pattern_match self
                  project_id min_file_size_mb fs in
  (forall b, b ∈ result.1 -> filename b <> name e) /\
  filter (fun p : string * Q => p.1 = name e) result.2
    = [(name e, (inject_Z sz / MiB)%Q)] /\
  (name e, (inject_Z sz / MiB)%Q) ∈ result.2.
Proof.
  intros Hfs Hnd He Hfile Hpat Hsize Hlt result.
  assert (undersized_of e = Some (name e, (inject_Z sz / MiB)%Q)) as Hrep.
  { unfold undersized_report, scan_item. rewrite Hfile, Hpat, Hsize. simpl.
    apply Qltb_spec in Hlt. by rewrite Hlt. }
  assert (valid_of e = None) as Hval.
  { unfold valid_report, scan_item. rewrite Hfile, Hpat, Hsize. simpl.
    apply Qltb_spec in Hlt. by rewrite Hlt. }
  unfold result, scan_project_backups. rewrite Hfs, scan_foldl. simpl.
  split_and!.
  - intros b (x & Hx & Hb)%list_elem_of_omap Hname.
    pose proof (valid_report_Some _ _ Hb) as (Hfn & _).
    assert (x = e) as ->.
    { apply list_elem_of_lookup in Hx as [i Hi], He as [j Hj].
      assert (i = j) as ->; [|congruence].
      eapply NoDup_lookup; [exact Hnd| |].
      - rewrite list_lookup_fmap, Hi. simpl. by rewrite <-Hfn, Hname.
      - by rewrite list_lookup_fmap, Hj. }
    congruence.
  - by apply undersized_once.
  - apply list_elem_of_omap. eauto.
Qed.

End Scanner.

Lemma undersized_file_reported_once_witness :
  let result := BackupScanner.scan_project_backups Examples.no_fuzzy
Examples.tarball Examples.scanner "p1" (inject_Z 1)
Examples.disk in
(forall b, b ∈ result.1 -> filename b <> BackupScanner.name Examples.small) /\
filter (fun p : string * Q => p.1 = BackupScanner.name Examples.small) result.2
= [(BackupScanner.name Examples.small,
(inject_Z 524288 / BackupScanner.MiB)%Q)] /\
(BackupScanner.name Examples.small,
(inject_Z 524288 / BackupScanner.MiB)%Q) ∈ result.2.
Proof.
apply (undersized_file_reported_once Examples.no_fuzzy Examples.tarball
Examples.scanner "p1" (inject_Z 1) Examples.disk
[Examples.small; Examples.notes; Examples.large]
Examples.small 524288).
- reflexivity.
- apply (bool_decide_unpack _). vm_compute. exact I.
- apply (bool_decide_unpack _). vm_compute. exact I.
- reflexivity.
- vm_compute. reflexivity.
- reflexivity.
- vm_compute. reflexivity.
Defined.

(** ** The state store *)

Section StateStore.
Import State.
Local Open Scope string_scope.

Lemma optstr_roundtrip o : optstr_of_json (Some (json_of_optstr o)) = Some o.
Proof. by destruct o. Qed.

(** [ProjectState] called on [asdict ps] rebuilds [ps]. *)
Lemma ProjectState_roundtrip ps : ProjectState_of_kwargs (asdict ps) = Some ps.
Proof.
  destruct ps as [pid ts n sz]. unfold asdict, ProjectState_of_kwargs.
  cbn [project_id last_deletion_timestamp deleted_files_count
       deleted_files_size_bytes].
  case_bool_decide as Hdom.
  - rewrite lookup_insert_eq.
    rewrite !(lookup_insert_ne _ "project_id") by done.
    rewrite lookup_insert_eq.
    rewrite !(lookup_insert_ne _ "last_deletion_timestamp") by done.
    rewrite lookup_insert_eq.
    rewrite !(lookup_insert_ne _ "deleted_files_count") by done.
    rewrite lookup_insert_eq.
    rewrite optstr_roundtrip. done.
  - exfalso. apply Hdom.
    rewrite !dom_insert_L, dom_empty_L. unfold field_names. set_solver.
Qed.

(** Loading what [save_state] wrote gives the saved state back. *)
Lemma state_roundtrip st : state_of_json (state_dict st) = Some st.
Proof.
  destruct st as [w a ps]. unfold state_dict, state_of_json.
  cbn [last_weekly_report_timestamp disk_alert_last_sent_date projects].
  set (d := <["last_weekly_report_timestamp" := json_of_optstr w]>
              (<["disk_alert_last_sent_date" := json_of_optstr a]>
                 (<["projects" := JObj (asdict <$> ps)]> ∅))).
  assert (d !! "projects" = Some (JObj (asdict <$> ps))) as ->
    by (unfold d; by simplify_map_eq).
  assert (d !! "last_weekly_report_timestamp" = Some (json_of_optstr w))
    as -> by (unfold d; by simplify_map_eq).
  assert (d !! "disk_alert_last_sent_date" = Some (json_of_optstr a))
    as -> by (unfold d; by simplify_map_eq).
  cbn [mbind option_bind]. rewrite !optstr_roundtrip.
  case_bool_decide as Hall.
  - cbn [mbind option_bind]. do 2 f_equal. apply map_eq. intros pid.
    rewrite lookup_omap, lookup_fmap.
    destruct (ps !! pid) as [p|]; simpl; [|done].
    apply ProjectState_roundtrip.
  - exfalso. apply Hall. intros pid j. rewrite lookup_fmap.
    destruct (ps !! pid) as [p|]; simpl; [|done].
    intros [= <-]. rewrite ProjectState_roundtrip. eauto.
Qed.

Lemma load_saved st : _load_state (Document (state_dict st)) = st.
Proof. unfold _load_state. by rewrite state_roundtrip. Qed.

(** The counters after one recorded deletion. *)
Lemma record_deletion_lookup st pid sz now :
  exists ps,
    projects (record_deletion st pid sz now) !! pid = Some ps /\
    deleted_files_count ps
      = from_option deleted_files_count 0 (projects st !! pid) + 1 /\
    deleted_files_size_bytes ps
      = from_option deleted_files_size_bytes 0 (projects st !! pid) + sz.
Proof.
  unfold record_deletion, get_project_state.
  destruct (projects st !! pid) as [ps|]; simpl;
    rewrite lookup_insert_eq; eauto.
Qed.

(** C9. On a store whose state has no entry for ["p1"] (a fresh store, in
    particular), recording deletions of 10, 20 and 30 bytes for ["p1"] and,
    the last save having reached the disk, loading a new store from the
    file yields a state for ["p1"] with [deleted_files_count = 3] and
    [deleted_files_size_bytes = 60]. *)
Theorem deletion_counters_survive_reload
    (f0 : State.file) (now1 now2 now3 : string) (w1 w2 : bool) :
  projects (StateManager.state (StateManager.init f0)) !! "p1" = None ->
  let sm1 := StateManager.record_deletion (StateManager.init f0)
               "p1" 10 now1 w1 in
  let sm2 := StateManager.record_deletion sm1 "p1" 20 now2 w2 in
  let sm3 := StateManager.record_deletion sm2 "p1" 30 now3 true in
  let reloaded := StateManager.init (StateManager.state_file sm3) in
  exists ps,
    (StateManager.get_project_state reloaded "p1").1 = ps /\
    projects (StateManager.state reloaded) !! "p1" = Some ps /\
    deleted_files_count ps = 3 /\
    deleted_files_size_bytes ps = 60.
Proof.
  intros Hfresh sm1 sm2 sm3 reloaded.
  assert (StateManager.state reloaded = StateManager.state sm3) as Hre.
  { unfold reloaded, sm3, StateManager.record_deletion,
      StateManager.save_state, StateManager.init.
    cbn [StateManager.state StateManager.state_file]. apply load_saved. }
  assert (StateManager.state sm3
          = record_deletion
              (record_deletion
                 (record_deletion
                    (StateManager.state (StateManager.init f0))
                    "p1" 10 now1) "p1" 20 now2) "p1" 30 now3) as Hst.
  { unfold sm3, sm2, sm1, StateManager.record_deletion,
      StateManager.save_state. by destruct w1, w2. }
  set (st0 := StateManager.state (StateManager.init f0)) in *.
  destruct (record_deletion_lookup st0 "p1" 10 now1) as (p1 & H1 & C1 & S1).
  destruct (record_deletion_lookup (record_deletion st0 "p1" 10 now1)
              "p1" 20 now2) as (p2 & H2 & C2 & S2).
  destruct (record_deletion_lookup
              (record_deletion (record_deletion st0 "p1" 10 now1)
                 "p1" 20 now2) "p1" 30 now3) as (p3 & H3 & C3 & S3).
  rewrite Hfresh in C1, S1. rewrite H1 in C2, S2. rewrite H2 in C3, S3.
  simpl in C1, S1, C2, S2, C3, S3.
  exists p3. unfold StateManager.get_project_state, get_project_state.
  rewrite Hre, Hst, H3. split_and!; [done|done|lia|lia].
Qed.

Lemma deletion_counters_survive_reload_witness :
  let sm1 := StateManager.record_deletion (StateManager.init NoFile)
               "p1" 10 "2024-01-15T03:00:01" true in
  let sm2 := StateManager.record_deletion sm1 "p1" 20
               "2024-01-15T03:00:02" false in
  let sm3 := StateManager.record_deletion sm2 "p1" 30
               "2024-01-15T03:00:03" true in
  let reloaded := StateManager.init (StateManager.state_file sm3) in
  exists ps,
    (StateManager.get_project_state reloaded "p1").1 = ps /\
    projects (StateManager.state reloaded) !! "p1" = Some ps /\
    deleted_files_count ps = 3 /\
    deleted_files_size_bytes ps = 60.
Proof.
  apply (deletion_counters_survive_reload NoFile
           "2024-01-15T03:00:01" "2024-01-15T03:00:02"
           "2024-01-15T03:00:03" true false).
  reflexivity.
Defined.

End StateStore.

(** ** More on the retention engine *)

Section EngineMore.
Import RotationEngine.

#[local] Abbreviation ts_ltb := (Py.key_ltb by_timestamp).


Lemma List_filter_descending {A} (key : A -> list Z) (f : A -> bool) (l : list A) :
  Py.descending key l -> Py.descending key (List.filter f l).
Proof.
  induction 1 as [|x l Hl IH Hx]; simpl; [constructor|].
  destruct (f x); [|done]. constructor; [done|].
  rewrite Forall_forall in Hx |- *. intros y Hy.
  rewrite elem_of_List_filter in Hy. apply Hx. tauto.
Qed.

Lemma descending_lookup {A} (key : A -> list Z) (l : list A) i j a b :
  Py.descending key l -> l !! i = Some a -> l !! j = Some b -> (i < j)%nat ->
  Py.key_ltb key a b = false.
Proof.
  intros Hdesc Hi Hj Hij. rewrite <-(take_drop j l) in Hdesc.
  eapply descending_app; [exact Hdesc| |].
  - apply elem_of_take. eauto.
  - apply list_elem_of_lookup_2 with 0%nat. by rewrite lookup_drop, Nat.add_0_r.
Qed.

(** The monthly tier: for every month key selected, some record of that
    month is retained; it falls on the first day of the month when a record
    of that month does, and then no first-of-month record of the month is
    more recent; otherwise no record of the month is more recent. *)
Theorem monthly_tier_prefers_first_of_month
    (self : RotationEngine.t) (backups : list BackupFile) (mk : Z * Z) :
  mk ∈ sorted_months self backups ->
  exists dels r,
    calculate_deletions self backups = Some dels /\
    r ∈ backups /\ _get_calendar_month_key (timestamp r) = mk /\
    (path r ∉ path <$> dels) /\ (r ∉ dels) /\
    ((exists b, b ∈ backups /\ _get_calendar_month_key (timestamp b) = mk /\
                _is_first_of_month (timestamp b) = true) ->
       _is_first_of_month (timestamp r) = true /\
       forall b, b ∈ backups -> _get_calendar_month_key (timestamp b) = mk ->
                 _is_first_of_month (timestamp b) = true ->
                 ts_ltb r b = false) /\
    ((forall b, b ∈ backups -> _get_calendar_month_key (timestamp b) = mk ->
                _is_first_of_month (timestamp b) = false) ->
       forall b, b ∈ backups -> _get_calendar_month_key (timestamp b) = mk ->
                 ts_ltb r b = false).
Proof.
  intros Hmk.
  destruct (calculate_deletions_Some self backups) as (dels & Hd & _).
  destruct (pick_is_Some _get_calendar_month_key _is_first_of_month
              (sorted_backups backups) mk) as [r Hr].
  { by apply sorted_keys_elem_of with (monthly_count self). }
  pose proof (pick_spec _ _ _ _ _ Hr) as (Hin & Hk & Hfirst & Hno).
  assert (path r ∈ kept_paths self backups) as Hkept.
  { unfold kept_paths. apply elem_of_union_r.
    apply elem_of_list_to_set, list_elem_of_fmap. exists r. split; [done|].
    apply elem_of_picks. eauto. }
  destruct (kept_not_deleted self backups dels r Hd Hkept) as [Hp Hnin].
  exists dels, r. split_and!; try done.
  - by rewrite sorted_backups_elem_of in Hin.
  - intros (b & Hb & Hbk & Hbm).
    destruct Hfirst as [Hrm Hmax].
    { exists b. by rewrite sorted_backups_elem_of. }
    split; [done|]. intros b' Hb'. apply Hmax.
    by rewrite sorted_backups_elem_of.
  - intros Hnone b Hb. apply Hno; [|by rewrite sorted_backups_elem_of].
    intros b' Hb'. apply Hnone. by rewrite sorted_backups_elem_of in Hb'.
Qed.

Lemma monthly_tier_prefers_first_of_month_witness :
  exists dels r,
    calculate_deletions (RotationEngine.mk 0 0 2) Examples.five = Some dels /\
    r ∈ Examples.five /\ _get_calendar_month_key (timestamp r) = (2023, 12) /\
    (path r ∉ path <$> dels) /\ (r ∉ dels) /\
    ((exists b, b ∈ Examples.five /\
                _get_calendar_month_key (timestamp b) = (2023, 12) /\
                _is_first_of_month (timestamp b) = true) ->
       _is_first_of_month (timestamp r) = true /\
       forall b, b ∈ Examples.five ->
                 _get_calendar_month_key (timestamp b) = (2023, 12) ->
                 _is_first_of_month (timestamp b) = true ->
                 ts_ltb r b = false) /\
    ((forall b, b ∈ Examples.five ->
                _get_calendar_month_key (timestamp b) = (2023, 12) ->
                _is_first_of_month (timestamp b) = false) ->
       forall b, b ∈ Examples.five ->
                 _get_calendar_month_key (timestamp b) = (2023, 12) ->
                 ts_ltb r b = false).
Proof.
  apply (monthly_tier_prefers_first_of_month (RotationEngine.mk 0 0 2)
           Examples.five).
  apply (bool_decide_unpack _). vm_compute. exact I.
Defined.


(** The deletion list is ordered from the newest to the oldest record. *)
Theorem deletions_newest_first
    (self : RotationEngine.t) (backups : list BackupFile) :
  exists dels,
    calculate_deletions self backups = Some dels /\
    Py.descending by_timestamp dels /\
    forall i j a b, dels !! i = Some a -> dels !! j = Some b ->
                    (i < j)%nat -> ts_ltb a b = false.
Proof.
  eexists. split; [apply calculate_deletions_eq|].
  assert (Py.descending by_timestamp
            (List.filter
               (fun b => bool_decide (path b ∉ kept_paths self backups))
               (sorted_backups backups))) as Hdesc.
  { apply List_filter_descending, sorted_rev_descending. }
  split; [done|]. intros i j a b Hi Hj Hij.
  eapply descending_lookup; eauto.
Qed.

Lemma List_filter_all {A} (f : A -> bool) (l : list A) :
  (forall x, f x = true) -> List.filter f l = l.
Proof.
  intros Hf. induction l as [|x l IH]; simpl; [done|].
  by rewrite Hf, IH.
Qed.

Lemma slice_to_zero {A} (l : list A) : Py.slice_to 0 l = [].
Proof. done. Qed.

(** An engine created with the three overrides set to 0 deletes every input
    record, whatever the defaults are: 0 is an override, not "unset". *)
Theorem zero_policy_deletes_everything
    (default_daily default_weekly default_monthly : Z)
    (backups : list BackupFile) :
  exists dels,
    calculate_deletions
      (create_rotation_engine (Some 0) (Some 0) (Some 0)
         default_daily default_weekly default_monthly) backups = Some dels /\
    dels = sorted_backups backups /\ dels ≡ₚ backups.
Proof.
  eexists. split; [apply calculate_deletions_eq|].
  assert (kept_paths (create_rotation_engine (Some 0) (Some 0) (Some 0)
                        default_daily default_weekly default_monthly) backups
          = ∅) as Hk.
  { unfold kept_paths, daily_backups, weekly_backups, monthly_backups,
      sorted_weeks, sorted_months, sorted_keys, create_rotation_engine.
    cbn [daily_count weekly_count monthly_count].
    rewrite !slice_to_zero. cbn [omap list_omap fmap list_fmap].
    rewrite list_to_set_nil. set_solver. }
  rewrite List_filter_all; [split; [done|apply sorted_rev_perm]|].
  intros b. rewrite Hk. apply bool_decide_eq_true_2. set_solver.
Qed.

Lemma slice_to_mono {A} (n n' : Z) (l : list A) x :
  0 <= n <= n' -> x ∈ Py.slice_to n l -> x ∈ Py.slice_to n' l.
Proof.
  intros Hn. unfold Py.slice_to.
  destruct (Z.leb_spec 0 n); [|lia]. destruct (Z.leb_spec 0 n'); [|lia].
  rewrite !elem_of_take. intros (i & Hi & Hlt). exists i. split; [done|lia].
Qed.

Lemma picks_mono (key : datetime -> Z * Z) (prefer : datetime -> bool)
    (n n' : Z) (l : list BackupFile) r :
  0 <= n <= n' ->
  r ∈ omap (pick prefer (buckets key l)) (sorted_keys n (buckets key l)) ->
  r ∈ omap (pick prefer (buckets key l)) (sorted_keys n' (buckets key l)).
Proof.
  intros Hn. rewrite !list_elem_of_omap. intros (k & Hk & Hp).
  exists k. split; [|done]. unfold sorted_keys in *.
  by apply slice_to_mono with n.
Qed.

Lemma kept_paths_mono (self self' : RotationEngine.t) (backups : list BackupFile) :
  0 <= daily_count self <= daily_count self' ->
  0 <= weekly_count self <= weekly_count self' ->
  0 <= monthly_count self <= monthly_count self' ->
  kept_paths self backups ⊆ kept_paths self' backups.
Proof.
  intros Hd Hw Hm p. unfold kept_paths.
  rewrite !elem_of_union, !elem_of_list_to_set, !list_elem_of_fmap.
  intros [[(r & -> & Hr)|(r & -> & Hr)]|(r & -> & Hr)].
  - left. left. exists r. split; [done|].
    unfold daily_backups in *. by apply slice_to_mono with (daily_count self).
  - left. right. exists r. split; [done|].
    unfold weekly_backups, sorted_weeks in *.
    by apply picks_mono with (weekly_count self).
  - right. exists r. split; [done|].
    unfold monthly_backups, sorted_months in *.
    by apply picks_mono with (monthly_count self).
Qed.

(** Raising retention counts never deletes more: every record deleted under
    the larger policy is deleted under the smaller one. *)
Theorem raising_counts_never_deletes_more
    (self self' : RotationEngine.t) (backups : list BackupFile) :
  0 <= daily_count self <= daily_count self' ->
  0 <= weekly_count self <= weekly_count self' ->
  0 <= monthly_count self <= monthly_count self' ->
  exists dels dels',
    calculate_deletions self backups = Some dels /\
    calculate_deletions self' backups = Some dels' /\
    forall b, b ∈ dels' -> b ∈ dels.
Proof.
  intros Hd Hw Hm.
  pose proof (kept_paths_mono self self' backups Hd Hw Hm) as Hsub.
  do 2 eexists. split; [apply calculate_deletions_eq|].
  split; [apply calculate_deletions_eq|].
  intros b. rewrite !elem_of_List_filter, !bool_decide_eq_true.
  intros [Hb Hnk]. split; [done|]. intros Hk. apply Hnk, Hsub, Hk.
Qed.

Lemma raising_counts_never_deletes_more_witness :
  exists dels dels',
    calculate_deletions (RotationEngine.mk 1 0 1) Examples.five = Some dels /\
    calculate_deletions (RotationEngine.mk 2 1 1) Examples.five = Some dels' /\
    forall b, b ∈ dels' -> b ∈ dels.
Proof.
  apply (raising_counts_never_deletes_more (RotationEngine.mk 1 0 1)
           (RotationEngine.mk 2 1 1) Examples.five); simpl; lia.
Defined.

(** The retained set is exactly the set of paths of the records picked by
    the three tiers, and every picked record is an input record. *)
Theorem retained_is_union_of_tiers
    (self : RotationEngine.t) (backups : list BackupFile) :
  exists dels,
    calculate_deletions self backups = Some dels /\
    retained backups dels
    = list_to_set (path <$> daily_backups self backups)
      ∪ list_to_set (path <$> weekly_backups self backups)
      ∪ list_to_set (path <$> monthly_backups self backups) /\
    (forall r, r ∈ daily_backups self backups \/
               r ∈ weekly_backups self backups \/
               r ∈ monthly_backups self backups -> r ∈ backups).
Proof.
  destruct (calculate_deletions_Some self backups) as (dels & Hd & Hspec).
  exists dels. split; [done|]. split.
  - fold (kept_paths self backups). apply set_eq. intros p. split.
    + apply (retained_subseteq self backups dels Hd).
    + intros Hp. unfold retained.
      rewrite elem_of_difference, !elem_of_list_to_set. split.
      * revert Hp. unfold kept_paths.
        rewrite !elem_of_union, !elem_of_list_to_set, !list_elem_of_fmap.
        intros [[(r & -> & Hr)|(r & -> & Hr)]|(r & -> & Hr)];
          exists r; split; try done.
        -- by apply daily_backups_elem_of in Hr.
        -- by apply weekly_backups_elem_of in Hr.
        -- by apply monthly_backups_elem_of in Hr.
      * intros (b & -> & Hb)%list_elem_of_fmap.
        apply Hspec in Hb as [_ Hb]. done.
  - intros r [Hr|[Hr|Hr]].
    + by apply daily_backups_elem_of in Hr.
    + by apply weekly_backups_elem_of in Hr.
    + by apply monthly_backups_elem_of in Hr.
Qed.

Lemma key_tuple_inj (k1 k2 : Z * Z) : key_tuple k1 = key_tuple k2 -> k1 = k2.
Proof. destruct k1, k2. unfold key_tuple. simpl. congruence. Qed.

(** The keys a tier selects are the newest keys of the input. *)
Lemma sorted_keys_newest (key : datetime -> Z * Z) (count : Z)
    (l : list BackupFile) :
  let keys := sorted_keys count (buckets key l) in
  NoDup keys /\
  (forall k, k ∈ keys -> exists b, b ∈ l /\ key (timestamp b) = k) /\
  (forall b k, b ∈ l -> key (timestamp b) ∉ keys -> k ∈ keys ->
               Py.key_ltb key_tuple (key (timestamp b)) k = true) /\
  (0 <= count ->
   Z.of_nat (length keys)
   = Z.min count
       (Z.of_nat (size (list_to_set ((key ∘ timestamp) <$> l)
                          : gset (Z * Z))))).
Proof.
  intros keys. unfold keys, sorted_keys.
  set (m := buckets key l).
  assert (dom m = list_to_set ((key ∘ timestamp) <$> l)) as Hdom.
  { apply set_eq. intros k. unfold m.
    rewrite elem_of_dom_buckets, elem_of_list_to_set, list_elem_of_fmap.
    split; intros (b & ? & ?); exists b; simpl in *; done. }
  set (s := Py.sorted_rev key_tuple (elements (dom m))).
  assert (NoDup s) as Hnd.
  { unfold s. rewrite sorted_rev_perm. apply NoDup_elements. }
  destruct (slice_to_take count s) as (k & Hk & Hcount). rewrite Hk.
  split_and!.
  - eapply sublist_NoDup; [exact Hnd|apply sublist_take].
  - intros x Hx. apply elem_of_dom_buckets. fold m.
    apply elem_of_elements. rewrite <-(sorted_rev_elem_of key_tuple).
    fold s. rewrite <-(take_drop k s). apply elem_of_app. by left.
  - intros b x Hb Hnot Hx.
    assert (key (timestamp b) ∈ s) as Hin.
    { unfold s. rewrite sorted_rev_elem_of, elem_of_elements.
      apply elem_of_dom_buckets. eauto. }
    rewrite <-(take_drop k s) in Hin, Hnd.
    apply elem_of_app in Hin as [Hin|Hin]; [done|].
    apply NoDup_app in Hnd as (_ & Hdisj & _).
    apply key_ltb_total.
    + intros Heq%key_tuple_inj. apply (Hdisj x Hx). by rewrite Heq.
    + eapply descending_app; [|exact Hx|exact Hin].
      rewrite take_drop. apply sorted_rev_descending.
  - intros Hc. rewrite length_take, (Hcount Hc).
    unfold s. rewrite sorted_rev_length. rewrite <-Hdom.
    change (length (elements (dom m))) with (size (dom m)). lia.
Qed.

(** The weeks of the weekly tier and the months of the monthly tier are the
    most recent ones: pairwise distinct keys of input records, newer than
    the key of every input record whose week (month) is not selected, and,
    for a non-negative count, as many as the count allows. *)
Theorem tiers_select_newest_keys
    (self : RotationEngine.t) (backups : list BackupFile) :
  (NoDup (sorted_weeks self backups) /\
   (forall k, k ∈ sorted_weeks self backups ->
      exists b, b ∈ backups /\ _get_calendar_week_key (timestamp b) = k) /\
   (forall b k, b ∈ backups ->
      _get_calendar_week_key (timestamp b) ∉ sorted_weeks self backups ->
      k ∈ sorted_weeks self backups ->
      Py.key_ltb key_tuple (_get_calendar_week_key (timestamp b)) k = true) /\
   (0 <= weekly_count self ->
    Z.of_nat (length (sorted_weeks self backups))
    = Z.min (weekly_count self)
        (Z.of_nat (size (list_to_set
                           ((_get_calendar_week_key ∘ timestamp) <$> backups)
                         : gset (Z * Z)))))) /\
  (NoDup (sorted_months self backups) /\
   (forall k, k ∈ sorted_months self backups ->
      exists b, b ∈ backups /\ _get_calendar_month_key (timestamp b) = k) /\
   (forall b k, b ∈ backups ->
      _get_calendar_month_key (timestamp b) ∉ sorted_months self backups ->
      k ∈ sorted_months self backups ->
      Py.key_ltb key_tuple (_get_calendar_month_key (timestamp b)) k = true) /\
   (0 <= monthly_count self ->
    Z.of_nat (length (sorted_months self backups))
    = Z.min (monthly_count self)
        (Z.of_nat (size (list_to_set
                           ((_get_calendar_month_key ∘ timestamp) <$> backups)
                         : gset (Z * Z)))))).
Proof.
  assert (forall key : datetime -> Z * Z,
            (list_to_set ((key ∘ timestamp) <$> sorted_backups backups)
               : gset (Z * Z))
            = list_to_set ((key ∘ timestamp) <$> backups)) as Hset.
  { intros key. apply set_eq. intros k.
    rewrite !elem_of_list_to_set, !list_elem_of_fmap.
    split; intros (b & ? & Hb); exists b; split; try done.
    - by rewrite sorted_backups_elem_of in Hb.
    - by rewrite sorted_backups_elem_of. }
  split.
  - destruct (sorted_keys_newest _get_calendar_week_key (weekly_count self)
                (sorted_backups backups)) as (H1 & H2 & H3 & H4).
    unfold sorted_weeks, weekly_buckets. split_and!; [done| | |].
    + intros k Hk. destruct (H2 k Hk) as (b & Hb & Hkb). exists b.
      by rewrite sorted_backups_elem_of in Hb.
    + intros b k Hb. apply H3. by rewrite sorted_backups_elem_of.
    + intros Hc. rewrite (H4 Hc). by rewrite Hset.
  - destruct (sorted_keys_newest _get_calendar_month_key (monthly_count self)
                (sorted_backups backups)) as (H1 & H2 & H3 & H4).
    unfold sorted_months, monthly_buckets. split_and!; [done| | |].
    + intros k Hk. destruct (H2 k Hk) as (b & Hb & Hkb). exists b.
      by rewrite sorted_backups_elem_of in Hb.
    + intros b k Hb. apply H3. by rewrite sorted_backups_elem_of.
    + intros Hc. rewrite (H4 Hc). by rewrite Hset.
Qed.

End EngineMore.

(** ** More on the state store *)

Section StateMore.
Import State.
Local Open Scope string_scope.

(** Whatever state is saved, a store started on the written file holds the
    same state: saving and loading is the identity. *)
Theorem save_then_load_is_identity (sm : StateManager.t) :
  StateManager.state
    (StateManager.init
       (StateManager.state_file (StateManager.save_state sm true)))
  = StateManager.state sm /\
  StateManager.state_file
    (StateManager.save_state (StateManager.save_state sm true) true)
  = StateManager.state_file (StateManager.save_state sm true).
Proof.
  unfold StateManager.save_state, StateManager.init.
  cbn [StateManager.state StateManager.state_file].
  split; [apply load_saved|done].
Qed.

Lemma record_deletion_other st pid sz now pid' :
  pid' <> pid ->
  projects (record_deletion st pid sz now) !! pid' = projects st !! pid'.
Proof.
  intros Hne. unfold record_deletion, get_project_state.
  destruct (projects st !! pid) as [ps|]; simpl;
    by rewrite ?lookup_insert_ne by done.
Qed.

Lemma record_all_other st pid (events : list (Z * string)) pid' :
  pid' <> pid ->
  projects (record_all st pid events) !! pid' = projects st !! pid'.
Proof.
  intros Hne. revert st. unfold record_all.
  induction events as [|ev events IH]; intros st; [done|].
  cbn [foldl]. rewrite IH. by apply record_deletion_other.
Qed.

Lemma record_deletion_globals st pid sz now :
  last_weekly_report_timestamp (record_deletion st pid sz now)
    = last_weekly_report_timestamp st /\
  disk_alert_last_sent_date (record_deletion st pid sz now)
    = disk_alert_last_sent_date st.
Proof.
  unfold record_deletion, get_project_state.
  by destruct (projects st !! pid).
Qed.

(** A run of recorded deletions for one project adds their number to that
    project's count and their sizes to its byte counter, creates the entry
    when there was none, and leaves the other projects, the alert date and
    the report time alone. *)
Theorem recorded_deletions_accumulate
    (st : GlobalState) (pid : string) (events : list (Z * string)) :
  events <> [] ->
  (exists ps,
     projects (record_all st pid events) !! pid = Some ps /\
     deleted_files_count ps
       = from_option deleted_files_count 0 (projects st !! pid)
         + Z.of_nat (length events) /\
     deleted_files_size_bytes ps
       = from_option deleted_files_size_bytes 0 (projects st !! pid)
         + foldr Z.add 0 (fst <$> events) /\
     last_deletion_timestamp ps = snd <$> last events) /\
  (forall pid', pid' <> pid ->
     projects (record_all st pid events) !! pid' = projects st !! pid') /\
  last_weekly_report_timestamp (record_all st pid events)
    = last_weekly_report_timestamp st /\
  disk_alert_last_sent_date (record_all st pid events)
    = disk_alert_last_sent_date st.
Proof.
  intros Hne. split_and!.
  - revert st. induction events as [|[sz now] events IH]; intros st; [done|].
    unfold record_all in *. cbn [foldl fst snd].
    destruct (record_deletion_lookup st pid sz now) as (ps1 & H1 & C1 & S1).
    assert (exists ps0, projects (record_deletion st pid sz now) !! pid
                        = Some ps0 /\ last_deletion_timestamp ps0 = Some now)
      as (ps0 & H0 & T0).
    { unfold record_deletion, get_project_state.
      destruct (projects st !! pid); simpl; rewrite lookup_insert_eq; eauto. }
    destruct events as [|ev events].
    + simpl. exists ps1. rewrite H1 in H0. injection H0 as <-.
      split_and!; [done|lia|lia|done].
    + destruct (IH ltac:(done) (record_deletion st pid sz now))
        as (ps & Hps & Cps & Sps & Tps).
      exists ps. rewrite H1 in Cps, Sps. simpl in Cps, Sps.
      split_and!; [done| | |done].
      * rewrite Cps, C1. simpl length. lia.
      * rewrite Sps, S1. simpl. lia.
  - intros pid' Hne'. revert st. unfold record_all.
    induction events as [|[sz now] events IH]; intros st; [done|].
    cbn [foldl fst snd].
    destruct events as [|ev events]; [by apply record_deletion_other|].
    rewrite IH by done. by apply record_deletion_other.
  - revert st. unfold record_all. clear Hne.
    induction events as [|[sz now] events IH]; intros st; [done|].
    cbn [foldl fst snd]. rewrite IH. apply record_deletion_globals.
  - revert st. unfold record_all. clear Hne.
    induction events as [|[sz now] events IH]; intros st; [done|].
    cbn [foldl fst snd]. rewrite IH. apply record_deletion_globals.
Qed.

Lemma recorded_deletions_accumulate_witness :
  (exists ps,
     projects (record_all empty_state "p1" [(10, "t1"); (20, "t2")]) !! "p1"
       = Some ps /\
     deleted_files_count ps
       = from_option deleted_files_count 0 (projects empty_state !! "p1")
         + Z.of_nat (length [(10, "t1"); (20, "t2")]) /\
     deleted_files_size_bytes ps
       = from_option deleted_files_size_bytes 0 (projects empty_state !! "p1")
         + foldr Z.add 0 (fst <$> [(10, "t1"); (20, "t2")]) /\
     last_deletion_timestamp ps = snd <$> last [(10, "t1"); (20, "t2")]) /\
  (forall pid', pid' <> "p1" ->
     projects (record_all empty_state "p1" [(10, "t1"); (20, "t2")]) !! pid'
     = projects empty_state !! pid') /\
  last_weekly_report_timestamp
    (record_all empty_state "p1" [(10, "t1"); (20, "t2")])
    = last_weekly_report_timestamp empty_state /\
  disk_alert_last_sent_date
    (record_all empty_state "p1" [(10, "t1"); (20, "t2")])
    = disk_alert_last_sent_date empty_state.
Proof.
  apply (recorded_deletions_accumulate empty_state "p1"
           [(10, "t1"); (20, "t2")]).
  discriminate.
Defined.

(** [reset_all_deletion_stats] sets both counters of every project to 0 and
    keeps the projects, their ids and last deletion times, the alert date
    and the report time; doing it twice changes nothing more. *)
Theorem reset_keeps_projects_and_zeroes_counters (st : GlobalState) :
  (forall pid,
     projects (reset_all_deletion_stats st) !! pid
     = (fun ps => mk_ProjectState (project_id ps)
                    (last_deletion_timestamp ps) 0 0) <$> projects st !! pid) /\
  dom (projects (reset_all_deletion_stats st)) = dom (projects st) /\
  last_weekly_report_timestamp (reset_all_deletion_stats st)
    = last_weekly_report_timestamp st /\
  disk_alert_last_sent_date (reset_all_deletion_stats st)
    = disk_alert_last_sent_date st /\
  reset_all_deletion_stats (reset_all_deletion_stats st)
    = reset_all_deletion_stats st.
Proof.
  unfold reset_all_deletion_stats. simpl. split_and!; try done.
  - intros pid. by rewrite lookup_fmap.
  - by rewrite dom_fmap_L.
  - f_equal. rewrite <-map_fmap_compose. apply map_fmap_ext.
    by intros pid [].
Qed.

(** A state file in which one project entry carries a key that is no field
    of [ProjectState], or lacks [project_id], loads as the empty state: the
    counters of all projects, the alert date and the report time are
    dropped. *)
Theorem malformed_project_entry_resets_state
    (d m kw : gmap string json) (pid : string) :
  d !! "projects" = Some (JObj m) ->
  m !! pid = Some (JObj kw) ->
  (exists k, k ∈ dom kw /\ k ∉ field_names) \/ kw !! "project_id" = None ->
  _load_state (Document (JObj d)) = empty_state.
Proof.
  intros Hd Hm Hbad. unfold _load_state, state_of_json. rewrite Hd.
  cbn [mbind option_bind].
  assert (ProjectState_of_kwargs (JObj kw) = None) as Hnone.
  { unfold ProjectState_of_kwargs. case_bool_decide as Hsub; [|done].
    destruct Hbad as [(k & Hk & Hnk)|Hpid].
    - exfalso. by apply Hnk, Hsub.
    - by rewrite Hpid. }
  case_bool_decide as Hall; [|done].
  exfalso. specialize (Hall pid (JObj kw) Hm). cbv beta in Hall.
  rewrite Hnone in Hall. by destruct Hall.
Qed.

Lemma malformed_project_entry_resets_state_witness :
  _load_state
    (Document
       (JObj {[ "disk_alert_last_sent_date" := JStr "2024-01-15";
                "projects" :=
                  JObj {[ "p1" := JObj {[ "project_id" := JStr "p1";
                                          "note" := JStr "x" ]} ]} ]}))
  = empty_state.
Proof.
  apply (malformed_project_entry_resets_state
           {[ "disk_alert_last_sent_date" := JStr "2024-01-15";
              "projects" :=
                JObj {[ "p1" := JObj {[ "project_id" := JStr "p1";
                                        "note" := JStr "x" ]} ]} ]}
           {[ "p1" := JObj {[ "project_id" := JStr "p1";
                              "note" := JStr "x" ]} ]}
           {[ "project_id" := JStr "p1"; "note" := JStr "x" ]} "p1").
  - vm_compute. reflexivity.
  - vm_compute. reflexivity.
  - left. exists "note". split.
    + apply (bool_decide_unpack _). vm_compute. exact I.
    + apply (bool_decide_unpack _). vm_compute. exact I.
Defined.

End StateMore.

(** ** The orchestrator *)

Section Orchestrator.
Import State BackupRotator.
Local Open Scope string_scope.



(** The deletion loop in dry-run mode touches neither the store nor the
    state file and reports every planned deletion as done. *)
Theorem dry_run_changes_no_state
    (unlink_ok : BackupFile -> bool) (now : BackupFile -> string)
    (write_ok : BackupFile -> bool) (project_id : string)
    (sm : StateManager.t) (dels : list BackupFile) :
  execute_deletions unlink_ok now write_ok true project_id sm dels
  = mk_progress (Z.of_nat (length dels))
                (foldr Z.add 0 (size_bytes <$> dels)) sm [].
Proof.
  unfold execute_deletions.
  assert (forall c z,
            foldl (delete_one unlink_ok now write_ok true project_id)
              (mk_progress c z sm []) dels
            = mk_progress (c + Z.of_nat (length dels))
                (z + foldr Z.add 0 (size_bytes <$> dels)) sm []) as H.
  { induction dels as [|b dels IH]; intros c z.
    - cbn [foldl length fmap list_fmap foldr]. f_equal; lia.
    - cbn [foldl]. unfold delete_one at 2.
      cbn [deleted_count deleted_size state_manager failure_alerts].
      rewrite IH. cbn [length fmap list_fmap foldr]. f_equal; lia. }
  rewrite H. f_equal.
Qed.

(** The deletion loop with [--execute]: a file whose unlink fails is
    reported and skipped, the loop goes on; the count and the size returned
    are those of the files unlinked, and the store has recorded exactly
    those, in order. *)
Theorem failed_deletions_are_skipped
    (unlink_ok : BackupFile -> bool) (now : BackupFile -> string)
    (write_ok : BackupFile -> bool)
    (project_id : string) (sm : StateManager.t) (dels : list BackupFile) :
  let done := List.filter unlink_ok dels in
  let result := execute_deletions unlink_ok now write_ok false
                  project_id sm dels in
  deleted_count result = Z.of_nat (length done) /\
  deleted_size result = foldr Z.add 0 (size_bytes <$> done) /\
  failure_alerts result
    = filename <$> List.filter (fun b => negb (unlink_ok b)) dels /\
  StateManager.state (state_manager result)
    = record_all (StateManager.state sm) project_id
        ((fun b => (size_bytes b, now b)) <$> done) /\
  (forall pid, pid <> project_id ->
     projects (StateManager.state (state_manager result)) !! pid
     = projects (StateManager.state sm) !! pid).
Proof.
  intros done result.
  assert (forall acc,
            let r := foldl (delete_one unlink_ok now write_ok false
                              project_id) acc dels in
            deleted_count r = deleted_count acc + Z.of_nat (length done) /\
            deleted_size r
              = deleted_size acc + foldr Z.add 0 (size_bytes <$> done) /\
            failure_alerts r
              = (failure_alerts acc ++
                 (filename <$> List.filter (fun b => negb (unlink_ok b)) dels))%list /\
            StateManager.state (state_manager r)
              = record_all (StateManager.state (state_manager acc)) project_id
                  ((fun b => (size_bytes b, now b)) <$> done)) as H.
  { unfold done. clear done result.
    induction dels as [|b dels IH]; intros acc.
    - simpl. rewrite app_nil_r. split_and!; try done; lia.
    - cbn [foldl List.filter]. unfold delete_one at 2 4 6 8. cbn [negb].
      destruct (unlink_ok b) eqn:E; cbn [negb].
      + destruct (IH (mk_progress (deleted_count acc + 1)
                        (deleted_size acc + size_bytes b)
                        (StateManager.record_deletion (state_manager acc)
                           project_id (size_bytes b) (now b) (write_ok b))
                        (failure_alerts acc))) as (H1 & H2 & H3 & H4).
        cbn [deleted_count deleted_size failure_alerts state_manager] in *.
        split_and!.
        * rewrite H1. cbn [length]. lia.
        * rewrite H2. cbn [fmap list_fmap foldr]. lia.
        * done.
        * rewrite H4. unfold StateManager.record_deletion,
            StateManager.save_state. by destruct (write_ok b).
      + destruct (IH (mk_progress (deleted_count acc) (deleted_size acc)
                        (state_manager acc)
                        (failure_alerts acc ++ [filename b])))
          as (H1 & H2 & H3 & H4).
        cbn [deleted_count deleted_size failure_alerts state_manager] in *.
        split_and!; [done|done| |done].
        rewrite H3. by rewrite <-app_assoc. }
  destruct (H (mk_progress 0 0 sm [])) as (H1 & H2 & H3 & H4).
  cbn [deleted_count deleted_size failure_alerts state_manager] in *.
  fold (execute_deletions unlink_ok now write_ok false project_id
          sm dels) in H1, H2, H3, H4. fold result in H1, H2, H3, H4.
  split_and!; [lia|lia|done|done|].
  intros pid Hpid. rewrite H4. by apply record_all_other.
Qed.

End Orchestrator.

(** ** Configuration constraints *)

Section ConfigFacts.
Import Config.

(** The project list passes [validate_unique_project_ids] exactly when the
    ids are pairwise distinct. *)
Theorem unique_ids_accepted_iff_distinct (ids : list string) :
  (validate_unique_project_ids ids = Some ids <-> NoDup ids) /\
  (validate_unique_project_ids ids = None <-> ~ NoDup ids).
Proof.
  unfold validate_unique_project_ids.
  assert (length ids = size (list_to_set ids : gset string) <-> NoDup ids)
    as Hiff.
  { split.
    - induction ids as [|x ids IH]; [constructor|].
      rewrite list_to_set_cons. intros Hlen.
      destruct (decide (x ∈ ids)) as [Hin|Hnin].
      + exfalso.
        assert (({[x]} ∪ list_to_set ids : gset string) = list_to_set ids)
          as Heq by set_solver.
        rewrite Heq in Hlen.
        pose proof (size_list_to_set_le ids). simpl in Hlen. lia.
      + constructor; [done|]. apply IH.
        rewrite size_union, size_singleton in Hlen by set_solver.
        simpl in Hlen. lia.
    - intros Hnd. by rewrite size_list_to_set. }
  case_bool_decide as Hne; split; split; try done.
  - intros Hnd. by apply Hiff in Hnd.
  - intros _ Hnd. by apply Hiff in Hnd.
  - intros _. by apply Hiff.
  - intros Hnd. exfalso. by apply Hnd, Hiff.
Qed.

End ConfigFacts.

(** ** More on the scanner *)

Section ScannerMore.
Import BackupScanner.
Local Open Scope string_scope.

Context (fuzzy_parse : string -> option datetime).
Context (pattern_match : string -> bool).
Context (self : BackupScanner.t) (pid : string) (min_file_size_mb : Q).

#[local] Abbreviation undersized_of :=
  (undersized_report fuzzy_parse pattern_match self pid
     min_file_size_mb).
#[local] Abbreviation valid_of :=
  (valid_report fuzzy_parse pattern_match self pid min_file_size_mb).
#[local] Abbreviation scan :=
  (scan_project_backups fuzzy_parse pattern_match self pid
     min_file_size_mb).

Lemma valid_report_inv item b :
  valid_of item = Some b ->
  is_file item = true /\ pattern_match (name item) = true /\
  st_size item = Some (size_bytes b) /\
  (min_size_bytes min_file_size_mb <= inject_Z (size_bytes b))%Q /\
  _parse_datetime_from_filename fuzzy_parse self (name item)
    = Some (timestamp b) /\
  filename b = name item /\
  path b = joinpath (project_path self pid) (name item) /\
  project_id b = pid /\
  undersized_of item = None.
Proof.
  unfold valid_report, undersized_report, scan_item.
  destruct (is_file item); simpl; [|done].
  destruct (pattern_match (name item)); simpl; [|done].
  destruct (st_size item) as [sz|]; simpl; [|done].
  destruct (DiskMonitor.Qltb _ _) eqn:E; simpl; [done|].
  destruct (_parse_datetime_from_filename _ _ _) as [ts|]; simpl; [|done].
  intros [= <-]. simpl. split_and!; try done.
  apply Qnot_lt_le. intros Hlt%Qltb_spec. congruence.
Qed.

Lemma scan_result (fs : string -> node) :
  scan fs =
  match fs (project_path self pid) with
  | Directory entries => (omap valid_of entries, omap undersized_of entries)
  | _ => ([], [])
  end.
Proof.
  unfold scan_project_backups.
  destruct (fs (project_path self pid)); try done.
  by rewrite (scan_foldl fuzzy_parse pattern_match self pid
                min_file_size_mb).
Qed.

(** Every record of the valid list stands for a regular file of the
    project directory whose name matches the pattern, whose size could be
    read and is not below the minimum, and whose timestamp is the
    extractor's answer for its name; its path lies in the project directory.
    A project path that is missing or no directory gives two empty
    lists. *)
Theorem valid_backups_are_sound (fs : string -> node) :
  (forall b, b ∈ (scan fs).1 ->
     exists entries item,
       fs (project_path self pid) = Directory entries /\
       item ∈ entries /\
       is_file item = true /\ pattern_match (name item) = true /\
       st_size item = Some (size_bytes b) /\
       (min_size_bytes min_file_size_mb <= inject_Z (size_bytes b))%Q /\
       _parse_datetime_from_filename fuzzy_parse self (name item)
         = Some (timestamp b) /\
       filename b = name item /\
       path b = joinpath (project_path self pid) (name item) /\
       project_id b = pid) /\
  ((forall entries, fs (project_path self pid) <> Directory entries) ->
   scan fs = ([], [])).
Proof.
  rewrite scan_result. split.
  - destruct (fs (project_path self pid)) as [| |entries]; simpl;
      try (by intros b Hb%elem_of_nil).
    intros b (item & Hitem & Hb)%list_elem_of_omap.
    apply valid_report_inv in Hb as (?&?&?&?&?&?&?&?&?).
    exists entries, item. split_and!; done.
  - intros Hno. destruct (fs (project_path self pid)) as [| |entries];
      try done. by destruct (Hno entries).
Qed.

Lemma omap_fmap_sublist {A B C} (f : A -> option B) (g : B -> C) (h : A -> C)
    (l : list A) :
  (forall x y, f x = Some y -> g y = h x) ->
  g <$> omap f l `sublist_of` h <$> l.
Proof.
  intros Hf. induction l as [|x l IH]; [constructor|].
  cbn [omap list_omap]. destruct (f x) as [y|] eqn:E.
  - rewrite !fmap_cons, (Hf x y E). by constructor.
  - rewrite fmap_cons. by constructor.
Qed.

(** Both result lists follow the directory listing: the file names of the
    valid records and the names of the undersized pairs are sub-sequences of
    the listing's names; no file is in both lists. *)
Theorem scan_lists_follow_listing
    (fs : string -> node) (entries : list dir_entry) :
  fs (project_path self pid) = Directory entries ->
  NoDup (name <$> entries) ->
  filename <$> (scan fs).1 `sublist_of` name <$> entries /\
  fst <$> (scan fs).2 `sublist_of` name <$> entries /\
  NoDup (filename <$> (scan fs).1) /\
  NoDup (fst <$> (scan fs).2) /\
  (forall n, n ∈ filename <$> (scan fs).1 -> n ∉ fst <$> (scan fs).2).
Proof.
  intros Hfs Hnd. rewrite scan_result, Hfs. simpl.
  assert (filename <$> omap valid_of entries `sublist_of` name <$> entries)
    as Hv.
  { apply omap_fmap_sublist. intros x y Hxy.
    by apply valid_report_inv in Hxy as (?&?&?&?&?&?&?). }
  assert (fst <$> omap undersized_of entries `sublist_of` name <$> entries)
    as Hu.
  { apply omap_fmap_sublist. intros x y Hxy.
    by apply (undersized_report_Some fuzzy_parse pattern_match self pid
                min_file_size_mb). }
  split_and!; [done|done| | |].
  - by eapply sublist_NoDup.
  - by eapply sublist_NoDup.
  - intros n (b & -> & Hb)%list_elem_of_fmap (p & Hp & Hin)%list_elem_of_fmap.
    apply list_elem_of_omap in Hb as (e1 & He1 & Hb).
    apply list_elem_of_omap in Hin as (e2 & He2 & Hin).
    pose proof (valid_report_inv _ _ Hb) as (_&_&_&_&_&Hn1&_&_&Hnone).
    pose proof (undersized_report_Some fuzzy_parse pattern_match self
                  pid min_file_size_mb _ _ Hin) as Hn2.
    assert (e1 = e2) as ->.
    { apply list_elem_of_lookup in He1 as [i Hi], He2 as [j Hj].
      assert (i = j) as ->; [|congruence].
      eapply NoDup_lookup; [exact Hnd| |].
      - rewrite list_lookup_fmap, Hi. simpl. by rewrite <-Hn1.
      - rewrite list_lookup_fmap, Hj. simpl. by rewrite <-Hn2, <-Hp. }
    congruence.
Qed.

End ScannerMore.

Lemma scan_lists_follow_listing_witness :
  let result := BackupScanner.scan_project_backups Examples.no_fuzzy
                  Examples.tarball Examples.scanner "p1" (inject_Z 1)
                  Examples.disk in
  filename <$> result.1
    `sublist_of` BackupScanner.name <$>
                   [Examples.small; Examples.notes; Examples.large] /\
  fst <$> result.2
    `sublist_of` BackupScanner.name <$>
                   [Examples.small; Examples.notes; Examples.large] /\
  NoDup (filename <$> result.1) /\
  NoDup (fst <$> result.2) /\
  (forall n, n ∈ filename <$> result.1 -> n ∉ fst <$> result.2).
Proof.
  apply (scan_lists_follow_listing Examples.no_fuzzy Examples.tarball
           Examples.scanner "p1" (inject_Z 1) Examples.disk
           [Examples.small; Examples.notes; Examples.large]).
  - reflexivity.
  - apply (bool_decide_unpack _). vm_compute. exact I.
Defined.

(** ** More on timestamp extraction *)

Section ExtractionMore.
Import BackupScanner Strptime.
Local Open Scope string_scope.

Lemma first_some_Some {A B} (f : A -> option B) (l : list A) y :
  first_some f l = Some y <->
  exists pre x post, l = (pre ++ x :: post)%list /\ f x = Some y /\
                     forall z, z ∈ pre -> f z = None.
Proof.
  induction l as [|x l IH]; simpl.
  - split; [done|]. intros (pre & z & post & H & _). by destruct pre.
  - destruct (f x) as [y'|] eqn:E.
    + split.
      * intros [= ->]. exists [], x, l. split_and!; [done|done|].
        by intros z ?%elem_of_nil.
      * intros ([|p pre] & z & post & Hl & Hz & Hpre).
        -- injection Hl as <- _. congruence.
        -- injection Hl as <- _. rewrite Hpre in E by left. done.
    + rewrite IH. split.
      * intros (pre & z & post & -> & Hz & Hpre).
        exists (x :: pre), z, post. split_and!; [done|done|].
        intros w [->|Hw]%elem_of_cons; auto.
      * intros ([|p pre] & z & post & Hl & Hz & Hpre).
        -- injection Hl as <- _. congruence.
        -- injection Hl as <- ->. exists pre, z, post.
           split_and!; [done|done|]. intros w Hw. apply Hpre. by right.
Qed.

Lemma first_some_Some_elem {A B} (f : A -> option B) (l : list A) y :
  first_some f l = Some y -> exists x, x ∈ l /\ f x = Some y.
Proof.
  intros (pre & x & post & -> & Hx & _)%first_some_Some.
  exists x. split; [|done]. apply elem_of_app. right. left.
Qed.



#[local] Abbreviation chars := String.list_ascii_of_string.

Lemma split_parts_lack_separator (sep : ascii) (s part : string) :
  part ∈ Py.split sep s -> sep ∉ chars part.
Proof.
  revert part. induction s as [|c s IH]; intros part; simpl.
  - intros ->%list_elem_of_singleton. simpl. by intros ?%elem_of_nil.
  - destruct (Ascii.eqb_spec c sep) as [->|Hne].
    + intros [->|Hin]%elem_of_cons; [simpl; by intros ?%elem_of_nil|].
      by apply IH.
    + destruct (Py.split sep s) as [|p ps] eqn:E.
      * intros ->%list_elem_of_singleton. simpl.
        intros [?|?%elem_of_nil]%elem_of_cons; [congruence|done].
      * intros [->|Hin]%elem_of_cons.
        -- simpl. intros [?|Hp]%elem_of_cons; [congruence|].
           revert Hp. apply IH. left.
        -- apply IH. by right.
Qed.

Lemma match_alt_rest alt acc s v rest c :
  match_alt alt acc s = Some (v, rest) -> c ∈ chars rest -> c ∈ chars s.
Proof.
  revert acc s. induction alt as [|k alt IH]; intros acc s; simpl.
  - by intros [= _ ->].
  - destruct s as [|c' s]; [done|]. destruct k as [lo hi|].
    + destruct (digit_value c') as [d|]; simpl; [|done].
      destruct (_ && _); [|done]. intros H Hc. simpl. right. by eapply IH.
    + destruct (Ascii.eqb c' " "); [|done].
      intros H Hc. simpl. right. by eapply IH.
Qed.

Lemma match_items_rest its dt s dt' rest c :
  match_items its dt s = Some (dt', rest) -> c ∈ chars rest -> c ∈ chars s.
Proof.
  revert dt s. induction its as [|it its IH]; intros dt s; simpl.
  - by intros [= _ ->].
  - destruct it as [l|d].
    + destruct s as [|c' s]; [done|].
      destruct (Ascii.eqb _ _); [|done].
      intros H Hc. simpl. right. by eapply IH.
    + intros (alt & _ & H)%first_some_Some_elem Hc.
      destruct (match_alt alt 0 s) as [[v r]|] eqn:E; simpl in H; [|done].
      eapply match_alt_rest; [exact E|]. by eapply IH.
Qed.

Lemma lower_underscore c : lower c = "_"%char -> c = "_"%char.
Proof.
  unfold lower. destruct (_ && _) eqn:E; [|done].
  intros H. exfalso. apply andb_true_iff in E as [E1 E2].
  apply Nat.leb_le in E1, E2. apply (f_equal nat_of_ascii) in H.
  rewrite nat_ascii_embedding in H by lia.
  change (nat_of_ascii "_") with 95%nat in H. lia.
Qed.

(** Every literal character of the format is found in the text the format
    matched. *)
Lemma match_items_underscore its dt s dt' rest :
  match_items its dt s = Some (dt', rest) ->
  Lit "_" ∈ its -> "_"%char ∈ chars s.
Proof.
  revert dt s. induction its as [|it its IH]; intros dt s; simpl.
  - by intros _ ?%elem_of_nil.
  - destruct it as [l|d].
    + destruct s as [|c' s]; [done|].
      destruct (Ascii.eqb_spec (lower l) (lower c')) as [Heq|]; [|done].
      intros H [[= <-]|Hin]%elem_of_cons; simpl.
      * apply elem_of_cons. left. symmetry. apply lower_underscore.
        by rewrite <-Heq.
      * right. by eapply IH.
    + intros (alt & _ & H)%first_some_Some_elem [?|Hin]%elem_of_cons;
        [done|].
      destruct (match_alt alt 0 s) as [[v r]|] eqn:E; simpl in H; [|done].
      eapply match_alt_rest; [exact E|]. by eapply IH.
Qed.

(** A format with an underscore in it, such as [%Y%m%d_%H%M%S], matches no
    underscore-separated segment of any file name: the segments the loop
    tries first can never carry such a timestamp. *)
Theorem underscore_format_matches_no_segment
    (fmt part subpart : string) (its : list item) :
  parse_format fmt = Some its ->
  Lit "_" ∈ its ->
  subpart ∈ Py.split "_" part ->
  strptime subpart fmt = None.
Proof.
  intros Hfmt Hlit Hsub. unfold strptime. rewrite Hfmt. simpl.
  destruct (match_items its defaults subpart) as [[dt rest]|] eqn:E;
    simpl; [|done].
  exfalso. eapply split_parts_lack_separator; [exact Hsub|].
  by eapply match_items_underscore.
Qed.

Lemma underscore_format_matches_no_segment_witness :
  strptime "20240115" "%Y%m%d_%H%M%S" = None.
Proof.
  apply (underscore_format_matches_no_segment "%Y%m%d_%H%M%S"
           "backup_20240115_030000" "20240115"
           [Dir DY; Dir Dm; Dir Dd; Lit "_"; Dir DH; Dir DM; Dir DS]).
  - vm_compute. reflexivity.
  - apply (bool_decide_unpack _). vm_compute. exact I.
  - apply (bool_decide_unpack _). vm_compute. exact I.
Defined.

End ExtractionMore.


(** ** From the validated configuration to the engine *)

Section ValidatedPolicy.
Import RotationEngine Config BackupRotator.

Lemma kept_paths_size_le (self : RotationEngine.t) (backups : list BackupFile) :
  0 <= daily_count self -> 0 <= weekly_count self ->
  0 <= monthly_count self ->
  Z.of_nat (size (kept_paths self backups))
  <= daily_count self + weekly_count self + monthly_count self.
Proof.
  intros Hd Hw Hm. unfold kept_paths.
  pose proof (size_union_le
                (list_to_set (path <$> daily_backups self backups)
                 ∪ list_to_set (path <$> weekly_backups self backups))
                (list_to_set (path <$> monthly_backups self backups))) as H1.
  pose proof (size_union_le
                (list_to_set (path <$> daily_backups self backups))
                (list_to_set (path <$> weekly_backups self backups))) as H2.
  pose proof (size_list_to_set_le (path <$> daily_backups self backups)) as D.
  pose proof (size_list_to_set_le (path <$> weekly_backups self backups)) as W.
  pose proof (size_list_to_set_le (path <$> monthly_backups self backups)) as M.
  rewrite length_fmap in D, W, M.
  pose proof (daily_backups_length self backups Hd).
  pose proof (weekly_backups_length self backups Hw).
  pose proof (monthly_backups_length self backups Hm).
  lia.
Qed.

Lemma validate_RetentionPolicy_Some p :
  validate_RetentionPolicy p = Some p <->
  0 <= daily p /\ 0 <= weekly p /\ 0 <= monthly p.
Proof.
  unfold validate_RetentionPolicy.
  destruct (_ && _) eqn:E.
  - apply andb_true_iff in E as [[E1 E2]%andb_true_iff E3]. split; [|done].
    intros _. apply Z.leb_le in E1, E2, E3. done.
  - split; [done|]. intros (H1 & H2 & H3).
    apply Z.leb_le in H1, H2, H3. by rewrite H1, H2, H3 in E.
Qed.

(** A project processed with policies that passed validation keeps at most
    as many backups as its effective policy (the project's own when it has
    one, the default otherwise) allows, and the built-in defaults 7/4/12 of
    the engine never come into play. *)
Theorem validated_policy_bounds_retention
    (retention : option Config.RetentionPolicy)
    (default_retention : Config.RetentionPolicy)
    (backups : list BackupFile) :
  (forall r, retention = Some r -> validate_RetentionPolicy r = Some r) ->
  validate_RetentionPolicy default_retention = Some default_retention ->
  let effective := default default_retention retention in
  let engine := engine_for retention default_retention in
  engine = RotationEngine.mk (daily effective) (weekly effective)
             (monthly effective) /\
  exists dels,
    calculate_deletions engine backups = Some dels /\
    Z.of_nat (size (retained backups dels))
    <= daily effective + weekly effective + monthly effective.
Proof.
  intros Hr Hd effective engine.
  assert (engine = RotationEngine.mk (daily effective) (weekly effective)
                     (monthly effective)) as Heng.
  { unfold engine, effective, engine_for. by destruct retention. }
  split; [done|].
  assert (0 <= daily effective /\ 0 <= weekly effective /\
          0 <= monthly effective) as (H1 & H2 & H3).
  { apply validate_RetentionPolicy_Some. unfold effective.
    destruct retention as [r|]; simpl; [by apply Hr|done]. }
  destruct (calculate_deletions_Some engine backups) as (dels & Hdels & _).
  exists dels. split; [done|].
  pose proof (subseteq_size _ _ (retained_subseteq _ _ _ Hdels)) as Hsub.
  pose proof (kept_paths_size_le engine backups) as Hle.
  rewrite Heng in Hle. cbn [daily_count weekly_count monthly_count] in Hle.
  rewrite <-Heng in Hle. specialize (Hle H1 H2 H3). lia.
Qed.

Lemma validated_policy_bounds_retention_witness :
  let effective := default (mk_RetentionPolicy 7 4 12)
                     (Some (mk_RetentionPolicy 2 1 1)) in
  let engine := engine_for (Some (mk_RetentionPolicy 2 1 1))
                  (mk_RetentionPolicy 7 4 12) in
  engine = RotationEngine.mk (daily effective) (weekly effective)
             (monthly effective) /\
  exists dels,
    calculate_deletions engine Examples.five = Some dels /\
    Z.of_nat (size (retained Examples.five dels))
    <= daily effective + weekly effective + monthly effective.
Proof.
  apply (validated_policy_bounds_retention
           (Some (mk_RetentionPolicy 2 1 1)) (mk_RetentionPolicy 7 4 12)
           Examples.five).
  - intros r [= <-]. reflexivity.
  - reflexivity.
Defined.

End ValidatedPolicy.
